(** * folder-elf-cli: scan, classify, deduplicate, reorganise

    A shallow embedding of the Go sources [scanner.go], [duplicates.go]
    and [organizer.go] together with the properties of the pipeline.

    Conventions of the embedding.
    - A path is the list of its components below the file-system root;
      [filepath.Join] appends a component and [filepath.Dir] drops the
      last one.  Every path the program builds is of that shape (a walked
      path joined with a base name or with a fixed folder name).
    - [int64] and [uint64] values are integers of [Z]; the places where
      the program converts or adds are written with the wrap-around.
    - A Go map is a [gmap]; the order in which [range] visits its keys is
      left open by the language, so the loops over maps take that order
      as an argument.
    - Console output is a log of the lines that carry a decision
      (warnings, "would move", "removing", ...); banners and the closing
      summaries are carried by the returned counters. *)

From Stdlib Require Import ZArith Ascii String List Bool Lia Floats Uint63.
From stdpp Require Import base gmap strings list fin_maps.

Local Open Scope string_scope.
Local Open Scope Z_scope.

(** ** Go's [strings] and [path/filepath] helpers *)

Module GoStrings.

(** [strings.ToLower] on the bytes of the ASCII range; the other bytes
    are kept. *)
Definition lower_ascii (c : ascii) : ascii :=
  let n := nat_of_ascii c in
  if ((65 <=? n)%nat && (n <=? 90)%nat)%bool then ascii_of_nat (n + 32) else c.

Fixpoint ToLower (s : string) : string :=
  match s with
  | EmptyString => EmptyString
  | String c s' => String (lower_ascii c) (ToLower s')
  end.

Fixpoint HasPrefix (s p : string) : bool :=
  match p, s with
  | EmptyString, _ => true
  | String c p', String d s' => Ascii.eqb c d && HasPrefix s' p'
  | String _ _, EmptyString => false
  end.

Fixpoint Contains (s sub : string) : bool :=
  HasPrefix s sub ||
  match s with
  | EmptyString => false
  | String _ s' => Contains s' sub
  end.

Definition HasSuffix (s p : string) : bool :=
  let ls := String.length s in
  let lp := String.length p in
  (lp <=? ls)%nat && String.eqb (substring (ls - lp) lp s) p.

(** [filepath.Ext]: the suffix that starts at the last dot of the last
    path element, empty when that element has no dot.  The scan goes
    from the end and stops at a separator. *)
Fixpoint ext_from (s : string) : option string :=
  match s with
  | EmptyString => None
  | String c s' =>
      match ext_from s' with
      | Some e => Some e
      | None =>
          if Ascii.eqb c "." then
            (if Contains s' "/" then None else Some s)
          else None
      end
  end.

Definition Ext (s : string) : string := default "" (ext_from s).

(** [switch x { case a, b, c: ... }] on strings. *)
Definition one_of (x : string) (cases : list string) : bool :=
  existsb (String.eqb x) cases.

End GoStrings.
Import GoStrings.

(** ** scanner.go *)

Abbreviation path := (list string).

(** The string form of a path, as [filepath.Walk] hands it to the callback. *)
Definition path_string (p : path) : string :=
  fold_right (fun c acc => "/" ++ c ++ acc) "" p.

Definition Join (dir : path) (name : string) : path := (dir ++ [name])%list.
Definition Dir (p : path) : path := removelast p.

Record FileInfo := mkFileInfo {
  Path : path;
  Name : string;
  Size : Z;
  Extension : string;
  Category : string;
  Hash : string;
  LastModified : Z;
  IsDuplicate : bool;
  IsZip : bool
}.

Record Scanner := mkScanner {
  Files : list FileInfo;
  Duplicates : gmap string (list FileInfo);
  Categories : gmap string (list FileInfo)
}.

Definition NewScanner : Scanner :=
  {| Files := []; Duplicates := ∅; Categories := ∅ |}.

Definition image_exts : list string :=
  [".jpg"; ".jpeg"; ".png"; ".gif"; ".bmp"; ".tiff"; ".svg"; ".webp"].
Definition document_exts : list string :=
  [".pdf"; ".doc"; ".docx"; ".txt"; ".rtf"; ".odt"; ".xls"; ".xlsx"; ".ppt"; ".pptx"].
Definition video_exts : list string :=
  [".mp4"; ".avi"; ".mkv"; ".mov"; ".wmv"; ".flv"; ".webm"].
Definition music_exts : list string :=
  [".mp3"; ".wav"; ".flac"; ".aac"; ".ogg"; ".wma"].
Definition application_exts : list string :=
  [".pkg"; ".exe"; ".msi"; ".deb"; ".rpm"; ".app"].
Definition archive_exts : list string :=
  [".zip"; ".rar"; ".7z"; ".tar"; ".gz"; ".bz2"].
Definition diskimage_exts : list string := [".iso"; ".dmg"].

Definition determineCategory (ext name : string) : string :=
  if one_of ext image_exts then "Images"
  else if one_of ext document_exts then "Documents"
  else if one_of ext video_exts then "Videos"
  else if one_of ext music_exts then "Music"
  else if one_of ext application_exts then "Applications"
  else if one_of ext archive_exts then "Archives"
  else if one_of ext diskimage_exts then "Disk Images"
  else
    let lowerName := ToLower name in
    if Contains lowerName "install" || Contains lowerName "setup" then "Applications"
    else if Contains lowerName "manual" || Contains lowerName "guide" then "Documents"
    else "Other".

(** The directory tree under the scan root, as [filepath.Walk] meets it:
    [os.Lstat] on an entry may fail ([EBroken]), reading the names of a
    directory may fail ([readable = false]), a file may refuse
    [os.Open] ([openable = false]) or fail while it is read for hashing
    ([hashable = false]). *)
#[local] Set Warnings "-register-all".
Inductive entry :=
| EFile (name : string) (size mtime : Z) (openable hashable : bool)
        (content : list Byte.byte)
| EDir (name : string) (readable : bool) (children : list entry)
| EBroken (name : string).

Definition entry_name (e : entry) : string :=
  match e with
  | EFile n _ _ _ _ _ => n
  | EDir n _ _ => n
  | EBroken n => n
  end.

Definition is_dir (e : entry) : bool :=
  match e with EDir _ _ _ => true | _ => false end.

(** What a [filepath.WalkFunc] returns: [nil], [filepath.SkipDir] or an
    error. *)
Inductive walk_result := Continue | SkipDir | Abort.

Definition get {A} (m : gmap string (list A)) (k : string) : list A :=
  default [] (m !! k).

Definition set_duplicate (f : FileInfo) : FileInfo :=
  {| Path := Path f; Name := Name f; Size := Size f; Extension := Extension f;
     Category := Category f; Hash := Hash f; LastModified := LastModified f;
     IsDuplicate := true; IsZip := IsZip f |}.

Section Scan.

(** [calculateFileHash] is the hex form of the MD5 digest of the bytes. *)
Variable md5hex : list Byte.byte -> string.

Definition calculateFileHash (hashable : bool) (content : list Byte.byte)
  : option string :=
  if hashable then Some (md5hex content) else None.

(** The callback of [ScanDirectory] on a directory. *)
Definition visit_dir (name : string) (s : Scanner) : Scanner * walk_result :=
  if HasPrefix name "." then (s, SkipDir)
  else if HasSuffix name ".app" then (s, SkipDir)
  else (s, Continue).

(** The callback of [ScanDirectory] on a file. *)
Definition visit_file (p : path) (name : string) (size mtime : Z)
    (openable hashable : bool) (content : list Byte.byte) (s : Scanner)
  : Scanner * walk_result :=
  if HasPrefix name "." then (s, Continue)
  else if Contains (path_string p) ".app/Contents/" then (s, Continue)
  else if negb openable then (s, Continue)
  else
    let ext := ToLower (Ext name) in
    let ext := if String.eqb ext "" then "no_extension" else ext in
    let category := determineCategory ext name in
    let hash := default "" (calculateFileHash hashable content) in
    let fileInfo :=
      {| Path := p; Name := name; Size := size; Extension := ext;
         Category := category; Hash := hash; LastModified := mtime;
         IsDuplicate := false; IsZip := String.eqb ext ".zip" |} in
    ({| Files := (Files s ++ [fileInfo])%list;
        Duplicates := Duplicates s;
        Categories :=
          <[category := (get (Categories s) category ++ [fileInfo])%list]>
            (Categories s) |},
     Continue).

(** [filepath.walk]: the callback on the entry, then its children in
    order; [SkipDir] from a directory child is absorbed, anything else
    that is not [nil] ends the loop and is returned. *)
Fixpoint walk (p : path) (e : entry) (s : Scanner) {struct e}
  : Scanner * walk_result :=
  match e with
  | EFile name size mtime openable hashable content =>
      visit_file p name size mtime openable hashable content s
  | EBroken _ => (s, Abort)
  | EDir name readable children =>
      if negb readable then (s, Abort)
      else
        match visit_dir name s with
        | (s1, Continue) =>
            (fix walk_children (l : list entry) (s : Scanner) {struct l} :=
               match l with
               | [] => (s, Continue)
               | c :: l' =>
                   let '(s', r) := walk (Join p (entry_name c)) c s in
                   match r with
                   | Continue => walk_children l' s'
                   | SkipDir =>
                       if is_dir c then walk_children l' s' else (s', SkipDir)
                   | Abort => (s', Abort)
                   end
               end) children s1
        | (s1, r) => (s1, r)
        end
  end.

(** [filepath.Walk]: a [SkipDir] that reaches the top is not an error. *)
Definition Walk (root : path) (e : entry) (s : Scanner) : Scanner * bool :=
  match walk root e s with
  | (s', Abort) => (s', false)
  | (s', _) => (s', true)
  end.

(** First loop of [findDuplicates]: group the files by non-empty hash. *)
Definition group_step (hashMap : gmap string (list FileInfo)) (file : FileInfo)
  : gmap string (list FileInfo) :=
  if String.eqb (Hash file) "" then hashMap
  else <[Hash file := (get hashMap (Hash file) ++ [file])%list]> hashMap.

Definition group_by_hash (files : list FileInfo) : gmap string (list FileInfo) :=
  fold_left group_step files ∅.

(** The inner loop over [s.Files]: the first record with the path gets the
    flag, then [break]. *)
Fixpoint mark_path (p : path) (files : list FileInfo) : list FileInfo :=
  match files with
  | [] => []
  | f :: rest =>
      if bool_decide (Path f = p) then set_duplicate f :: rest
      else f :: mark_path p rest
  end.

(** Second loop of [findDuplicates], over the entries of [hashMap] in the
    order [range] yields them. *)
Definition mark_all (files : list FileInfo) (scanned : list FileInfo)
  : list FileInfo :=
  fold_left (fun scanned f => mark_path (Path f) scanned) files scanned.

Definition mark_group (s : Scanner) (group : string * list FileInfo) : Scanner :=
  let '(hash, files) := group in
  if (1 <? length files)%nat then
    {| Files := mark_all files (Files s);
       Duplicates := <[hash := files]> (Duplicates s);
       Categories := Categories s |}
  else s.

Definition mark_groups (order : list (string * list FileInfo)) (s : Scanner)
  : Scanner :=
  fold_left mark_group order s.

Definition findDuplicates (s : Scanner) : Scanner :=
  mark_groups (map_to_list (group_by_hash (Files s))) s.

(** [ScanDirectory]: [None] is the error return, on which
    [findDuplicates] has not run. *)
Definition ScanDirectory (dirPath : path) (tree : entry) (s : Scanner)
  : option Scanner :=
  match Walk dirPath tree s with
  | (s', true) => Some (findDuplicates s')
  | (_, false) => None
  end.

End Scan.

(** ** The file system and the calls of package [os]

    The files and directories below the root, by path.  The root itself
    is the empty path and always a directory. *)

Inductive node := NFile (content : list Byte.byte) | NDir.

Abbreviation fsys := (gmap path node).

(** One entry of a zip archive's central directory ([zip.File]). *)
Record zipFile := mkZipFile {
  zName : string;
  zIsDir : bool;
  CompressedSize64 : Z;
  UncompressedSize64 : Z
}.

(** What the run cannot decide by itself: which calls the system refuses
    although the paths would allow them (another volume for [os.Rename],
    permissions, a full disk in the middle of [io.Copy]), how
    [archive/zip] reads the bytes of a file, and how [time.Format]
    renders a modification time as year and month. *)
Record OS := mkOS {
  rename_fails : path -> path -> bool;
  open_fails : path -> bool;
  create_fails : path -> bool;
  copy_fails : path -> option nat;
  sync_fails : path -> bool;
  remove_fails : path -> bool;
  mkdir_fails : path -> bool;
  zip_read : list Byte.byte -> option (list zipFile);
  year_month : Z -> string
}.

Definition os_Stat (fs : fsys) (p : path) : option node :=
  match p with
  | [] => Some NDir
  | _ => fs !! p
  end.

Definition is_prefix (p q : path) : bool := bool_decide (p `prefix_of` q).

Definition has_children (fs : fsys) (p : path) : bool :=
  existsb (fun q => is_prefix p q && negb (bool_decide (q = p)))
          (map fst (map_to_list fs)).

(** The entries at and below [src], keyed again below [dst]. *)
Definition rekey (src dst : path) (fs : fsys) : fsys :=
  list_to_map
    (omap (fun '(q, n) =>
             if is_prefix src q then Some ((dst ++ drop (length src) q)%list, n)
             else None)
          (map_to_list fs)).

Definition without (p : path) (fs : fsys) : fsys :=
  filter (fun '(q, _) => ¬ p `prefix_of` q) fs.

Definition dir_at (fs : fsys) (p : path) : bool :=
  match os_Stat fs p with
  | Some NDir => true
  | _ => false
  end.

(** A file can be put at [p]: the parent is a directory and [p] itself is
    not one. *)
Definition file_can_be_at (fs : fsys) (p : path) : bool :=
  dir_at fs (Dir p) && negb (dir_at fs p).

(** [os.Rename]: a file replaces a file at the new path; a directory
    moves with what is below it, onto nothing or onto an empty
    directory. *)
Definition os_Rename (E : OS) (fs : fsys) (src dst : path) : fsys * bool :=
  if rename_fails E src dst then (fs, false)
  else if bool_decide (src = []) then (fs, false)
  else
    match fs !! src with
    | None => (fs, false)
    | Some (NFile c) =>
        if file_can_be_at fs dst then (<[dst := NFile c]> (delete src fs), true)
        else (fs, false)
    | Some NDir =>
        if bool_decide (dst = []) || negb (dir_at fs (Dir dst)) then (fs, false)
        else if bool_decide (src = dst) then (fs, true)
        else if is_prefix src dst then (fs, false)
        else
          match fs !! dst with
          | Some (NFile _) => (fs, false)
          | Some NDir =>
              if has_children fs dst then (fs, false)
              else (rekey src dst fs ∪ without src fs, true)
          | None => (rekey src dst fs ∪ without src fs, true)
          end
    end.

(** [os.Remove]: a file, or a directory with nothing below it. *)
Definition os_Remove (E : OS) (fs : fsys) (p : path) : fsys * bool :=
  if remove_fails E p then (fs, false)
  else
    match fs !! p with
    | Some (NFile _) => (delete p fs, true)
    | Some NDir => if has_children fs p then (fs, false) else (delete p fs, true)
    | None => (fs, false)
    end.

(** [os.RemoveAll]; the program drops its result. *)
Definition os_RemoveAll (fs : fsys) (p : path) : fsys :=
  match p with
  | [] => fs
  | _ => without p fs
  end.

(** The non-empty prefixes of a path, shortest first. *)
Definition ancestors_and_self (p : path) : list path :=
  map (fun n => take n p) (seq 1 (length p)).

(** [os.MkdirAll]: fails on a file in the way, otherwise every missing
    directory down to [p] is made. *)
Definition os_MkdirAll (E : OS) (fs : fsys) (p : path) : fsys * bool :=
  if mkdir_fails E p then (fs, false)
  else if existsb (fun q => match fs !! q with Some (NFile _) => true | _ => false end)
                  (ancestors_and_self p)
  then (fs, false)
  else (fold_left (fun fs q => <[q := NDir]> fs) (ancestors_and_self p) fs, true).

(** ** The move primitive *)

(** [copyAndDelete]: open the source, create (truncate) the destination,
    copy, sync, remove the source.  Each early [return err] is a [false]
    with the file system as it is at that point.  [FileOrganizer] and
    [DuplicateHandler] each have this function, with [io.Copy] in the one
    and [ReadFrom] in the other. *)
Definition copyAndDelete (E : OS) (fs : fsys) (src dst : path) : fsys * bool :=
  (* srcFile, err := os.Open(src) *)
  if open_fails E src then (fs, false)
  else
    match os_Stat fs src with
    | None => (fs, false)
    | Some _ =>
        (* dstFile, err := os.Create(dst) *)
        if create_fails E dst || negb (file_can_be_at fs dst) then (fs, false)
        else
          let fs1 := <[dst := NFile []]> fs in
          (* io.Copy(dstFile, srcFile) *)
          match os_Stat fs1 src with
          | Some (NFile c) =>
              match copy_fails E src with
              | Some n => (<[dst := NFile (take n c)]> fs1, false)
              | None =>
                  let fs2 := <[dst := NFile c]> fs1 in
                  (* dstFile.Sync() *)
                  if sync_fails E dst then (fs2, false)
                  else (* os.Remove(src) *) os_Remove E fs2 src
              end
          | _ => (fs1, false)
          end
    end.

(** [atomicMove]: [os.Rename], and [copyAndDelete] when that fails. *)
Definition atomicMove (E : OS) (fs : fsys) (src dst : path) : fsys * bool :=
  match os_Rename E fs src dst with
  | (fs', true) => (fs', true)
  | (_, false) => copyAndDelete E fs src dst
  end.

(** ** organizer.go: archive screening and classification *)

Definition maxZipSize : Z := 100 * 1024 * 1024.
Definition maxZipEntries : Z := 10000.

(** [int64(x)]: the value of the low 64 bits, read as signed. *)
Definition to_int64 (z : Z) : Z := (z + 2 ^ 63) mod 2 ^ 64 - 2 ^ 63.

(** [float64(x)] for a [uint64]: the nearest double, ties to even.  Both
    halves of [x] are doubles, and so is the high half scaled by 2^32;
    their floating-point sum rounds the exact value once. *)
Definition float64_of_uint64 (z : Z) : float :=
  (PrimFloat.of_uint63 (Uint63.of_Z (z / 2 ^ 32)) * 0x1p32
   + PrimFloat.of_uint63 (Uint63.of_Z (z mod 2 ^ 32)))%float.

(** The constant [0.01] as a [float64]. *)
Definition one_percent : float := 0x1.47ae147ae147bp-7%float.

Inductive zip_error :=
| CannotStat
| TooLarge
| CannotOpen
| TooManyEntries
| SuspiciousRatio
| ExpandsTooLarge.

(** The test on one entry: [float64(CompressedSize64) /
    float64(UncompressedSize64) < 0.01] on an entry of more than 1 MiB. *)
Definition suspicious (f : zipFile) : bool :=
  (0 <? UncompressedSize64 f) &&
  (let compressionRatio :=
     (float64_of_uint64 (CompressedSize64 f)
      / float64_of_uint64 (UncompressedSize64 f))%float in
   PrimFloat.ltb compressionRatio one_percent
   && (1024 * 1024 <? UncompressedSize64 f)).

(** The loop of [checkZipBomb] over [r.File]; [None] is the [nil] return. *)
Fixpoint check_entries (files : list zipFile) (entryCount totalSize : Z)
  : option zip_error :=
  match files with
  | [] => None
  | f :: rest =>
      let entryCount := entryCount + 1 in
      if maxZipEntries <? entryCount then Some TooManyEntries
      else if suspicious f then Some SuspiciousRatio
      else
        let totalSize := to_int64 (totalSize + to_int64 (UncompressedSize64 f)) in
        if maxZipSize * 10 <? totalSize then Some ExpandsTooLarge
        else check_entries rest entryCount totalSize
  end.

(** [checkZipBomb] once [os.Stat] gave the size and [zip.OpenReader] the
    entries. *)
Definition screen (size : Z) (files : list zipFile) : option zip_error :=
  if maxZipSize <? size then Some TooLarge
  else check_entries files 0 0.

Definition OpenReader (E : OS) (fs : fsys) (p : path) : option (list zipFile) :=
  match fs !! p with
  | Some (NFile c) => if open_fails E p then None else zip_read E c
  | _ => None
  end.

Definition checkZipBomb (E : OS) (fs : fsys) (zipPath : path) : option zip_error :=
  match os_Stat fs zipPath with
  | None => Some CannotStat
  | Some NDir => Some CannotOpen
  | Some (NFile c) =>
      if maxZipSize <? Z.of_nat (length c) then Some TooLarge
      else
        match OpenReader E fs zipPath with
        | None => Some CannotOpen
        | Some files => check_entries files 0 0
        end
  end.

Definition font_exts : list string := [".ttf"; ".otf"; ".woff"; ".woff2"; ".eot"].
Definition code_exts : list string :=
  [".js"; ".py"; ".java"; ".cpp"; ".c"; ".cs"; ".php"; ".rb"; ".go"; ".rs";
   ".swift"; ".kt"; ".html"; ".css"; ".scss"; ".sql"; ".sh"; ".json"; ".xml";
   ".yaml"; ".yml"].
Definition zip_application_exts : list string :=
  [".exe"; ".msi"; ".dmg"; ".pkg"; ".app"; ".deb"; ".rpm"].

(** The seven counters of [analyzeZipContents]. *)
Record tally := mkTally {
  imageCount : Z;
  documentCount : Z;
  videoCount : Z;
  audioCount : Z;
  applicationCount : Z;
  fontCount : Z;
  codeCount : Z
}.

Definition no_tally : tally := mkTally 0 0 0 0 0 0 0.

Definition count_entry (t : tally) (f : zipFile) : tally :=
  if zIsDir f then t
  else
    let ext := ToLower (Ext (zName f)) in
    let '(mkTally i d v a ap fo c) := t in
    if one_of ext image_exts then mkTally (i + 1) d v a ap fo c
    else if one_of ext document_exts then mkTally i (d + 1) v a ap fo c
    else if one_of ext video_exts then mkTally i d (v + 1) a ap fo c
    else if one_of ext music_exts then mkTally i d v (a + 1) ap fo c
    else if one_of ext zip_application_exts then mkTally i d v a (ap + 1) fo c
    else if one_of ext font_exts then mkTally i d v a ap (fo + 1) c
    else if one_of ext code_exts then mkTally i d v a ap fo (c + 1)
    else t.

(** One [if count > maxCount { maxCount = count; dominantCategory = ... }]. *)
Definition consider (count : Z) (category : string) (st : Z * string)
  : Z * string :=
  if fst st <? count then (count, category) else st.

Definition dominant (t : tally) : string :=
  snd (consider (codeCount t) "Other"
      (consider (fontCount t) "Other"
      (consider (applicationCount t) "Applications"
      (consider (audioCount t) "Music"
      (consider (videoCount t) "Videos"
      (consider (documentCount t) "Documents"
      (consider (imageCount t) "Images" (0, "Other")))))))).

Definition analyzeZipContents (files : list zipFile) : string :=
  dominant (fold_left count_entry files no_tally).

(** ** The console and the state of a run *)

Inductive line :=
| WarnMkdirFailed (folder : string)
| WarnCannotProbe (folder : string)
| Processing (what : string) (n : nat)
| WarnExists (dest : path)
| WouldMove (name target : string)
| Moving (name : string)
| WarnMoveFailed (name : string)
| ProcessingZip (name : string)
| WarnSuspiciousZip (name : string) (why : zip_error)
| WarnZipOpenFailed (name : string)
| ZipContains (category : string)
| Keeping (name : string)
| WouldRemove (name : string)
| Removing (name : string)
| WarnRemoveFailed (name : string)
| Listing (index : nat) (name : string)
| InvalidNumber
| OutOfRange (n : nat)
| SkippingGroup.

(** The disk, the console, and the two counters every strategy keeps
    ([totalMoved] or [totalRemoved] or [totalProcessed], [totalSkipped])
    with the bytes counted as reclaimed. *)
Record run := mkRun {
  disk : fsys;
  console : list line;
  done_count : Z;
  skipped_count : Z;
  space_saved : Z
}.

Definition start (fs : fsys) : run := mkRun fs [] 0 0 0.

Definition say (l : line) (r : run) : run :=
  mkRun (disk r) (console r ++ [l]) (done_count r) (skipped_count r) (space_saved r).
Definition on_disk (fs : fsys) (r : run) : run :=
  mkRun fs (console r) (done_count r) (skipped_count r) (space_saved r).
Definition count_done (r : run) : run :=
  mkRun (disk r) (console r) (done_count r + 1) (skipped_count r) (space_saved r).
Definition count_skipped (r : run) : run :=
  mkRun (disk r) (console r) (done_count r) (skipped_count r + 1) (space_saved r).
Definition count_saved (size : Z) (r : run) : run :=
  mkRun (disk r) (console r) (done_count r) (skipped_count r)
        (to_int64 (space_saved r + size)).

(** ** organizer.go: the strategies *)

Record FileOrganizer := mkFileOrganizer {
  fo_Scanner : Scanner;
  fo_DryRun : bool;
  fo_CategoryMap : gmap string string;
  fo_BasePath : path
}.

Definition NewFileOrganizer (scanner : Scanner) (dryRun : bool) (basePath : path)
  : FileOrganizer :=
  {| fo_Scanner := scanner;
     fo_DryRun := dryRun;
     fo_CategoryMap :=
       list_to_map
         [("Images", "Images"); ("Documents", "Documents"); ("Videos", "Videos");
          ("Music", "Music"); ("Applications", "Applications");
          ("Archives", "Archives"); ("Disk Images", "Disk Images");
          ("Other", "Other")];
     fo_BasePath := basePath |}.

Definition folder_of (fo : FileOrganizer) (category : string) : string :=
  default "Other" (fo_CategoryMap fo !! category).

(** The body the three [Organize...] loops share, from the test on the
    file's current folder to the count of the move (organizer.go 160-186,
    241-267, 340-366). *)
Definition place (E : OS) (dryRun : bool) (folderPath : path) (folderName : string)
    (file : FileInfo) (r : run) : run :=
  if bool_decide (Dir (Path file) = folderPath) then count_skipped r
  else
    let destPath := Join folderPath (Name file) in
    match os_Stat (disk r) destPath with
    | Some _ => count_skipped (say (WarnExists destPath) r)
    | None =>
        if dryRun then count_done (say (WouldMove (Name file) folderName) r)
        else
          let r := say (Moving (Name file)) r in
          match atomicMove E (disk r) (Path file) destPath with
          | (fs', true) => count_done (on_disk fs' r)
          | (fs', false) =>
              count_skipped (say (WarnMoveFailed (Name file)) (on_disk fs' r))
          end
    end.

(** [if !fo.DryRun { os.MkdirAll(...) }]: [None] is the [continue] after a
    failure. *)
Definition make_folder (E : OS) (dryRun : bool) (folderPath : path)
    (folderName : string) (r : run) : option run :=
  if dryRun then Some r
  else
    match os_MkdirAll E (disk r) folderPath with
    | (fs', true) => Some (on_disk fs' r)
    | (fs', false) => None
    end.

(** The permission probe of a dry run of [OrganizeFiles]. *)
Definition probe (E : OS) (fo : FileOrganizer) (categoryPath : path) (r : run)
  : option run :=
  if fo_DryRun fo then
    match os_Stat (disk r) categoryPath with
    | None =>
        let testPath := Join (fo_BasePath fo) ".test_permissions" in
        match os_MkdirAll E (disk r) testPath with
        | (_, false) => None
        | (fs', true) => Some (on_disk (os_RemoveAll fs' testPath) r)
        end
    | Some _ => Some r
    end
  else Some r.

Definition OrganizeFiles (E : OS) (fo : FileOrganizer) (order : list string)
    (fs : fsys) : run :=
  fold_left
    (fun r category =>
       match Categories (fo_Scanner fo) !! category with
       | None => r
       | Some files =>
           let folderName := folder_of fo category in
           let categoryPath := Join (fo_BasePath fo) folderName in
           match make_folder E (fo_DryRun fo) categoryPath folderName r with
           | None => say (WarnMkdirFailed folderName) r
           | Some r =>
               match probe E fo categoryPath r with
               | None => say (WarnCannotProbe folderName) r
               | Some r =>
                   fold_left
                     (fun r file =>
                        if IsDuplicate file then r
                        else place E (fo_DryRun fo) categoryPath folderName file r)
                     files (say (Processing category (length files)) r)
               end
           end
       end)
    order (start fs).

Definition date_groups (E : OS) (files : list FileInfo)
  : gmap string (list FileInfo) :=
  fold_left
    (fun dateGroups file =>
       if IsDuplicate file then dateGroups
       else
         let dateKey := year_month E (LastModified file) in
         <[dateKey := (get dateGroups dateKey ++ [file])%list]> dateGroups)
    files ∅.

Definition OrganizeByDate (E : OS) (fo : FileOrganizer) (order : list string)
    (fs : fsys) : run :=
  let dateGroups := date_groups E (Files (fo_Scanner fo)) in
  fold_left
    (fun r dateKey =>
       match dateGroups !! dateKey with
       | None => r
       | Some files =>
           let datePath := Join (fo_BasePath fo) dateKey in
           match make_folder E (fo_DryRun fo) datePath dateKey r with
           | None => say (WarnMkdirFailed dateKey) r
           | Some r =>
               fold_left (fun r file => place E (fo_DryRun fo) datePath dateKey file r)
                         files (say (Processing dateKey (length files)) r)
           end
       end)
    order (start fs).

Definition sizeCategories : list (string * Z * Z) :=
  [("Tiny", 0, 1024 * 1024);
   ("Small", 1024 * 1024, 10 * 1024 * 1024);
   ("Medium", 10 * 1024 * 1024, 100 * 1024 * 1024);
   ("Large", 100 * 1024 * 1024, 1024 * 1024 * 1024);
   ("Huge", 1024 * 1024 * 1024, -1)].

Definition in_size_category (min max : Z) (file : FileInfo) : bool :=
  ((min =? -1) || (min <=? Size file)) && ((max =? -1) || (Size file <? max)).

Definition OrganizeBySize (E : OS) (fo : FileOrganizer) (fs : fsys) : run :=
  fold_left
    (fun r '(name, min, max) =>
       let filesToMove :=
         filter (fun file => negb (IsDuplicate file) && in_size_category min max file)
                (Files (fo_Scanner fo)) in
       match filesToMove with
       | [] => r
       | _ =>
           let sizePath := Join (fo_BasePath fo) name in
           match make_folder E (fo_DryRun fo) sizePath name r with
           | None => say (WarnMkdirFailed name) r
           | Some r =>
               fold_left (fun r file => place E (fo_DryRun fo) sizePath name file r)
                         filesToMove (say (Processing name (length filesToMove)) r)
           end
       end)
    sizeCategories (start fs).

Definition ProcessZipFiles (E : OS) (fo : FileOrganizer) (fs : fsys) : run :=
  let zipFiles := get (Categories (fo_Scanner fo)) "Archives" in
  fold_left
    (fun r zipFile =>
       if IsDuplicate zipFile then r
       else
         let r := say (ProcessingZip (Name zipFile)) r in
         match checkZipBomb E (disk r) (Path zipFile) with
         | Some err => count_skipped (say (WarnSuspiciousZip (Name zipFile) err) r)
         | None =>
             match OpenReader E (disk r) (Path zipFile) with
             | None => count_skipped (say (WarnZipOpenFailed (Name zipFile)) r)
             | Some entries =>
                 let category := analyzeZipContents entries in
                 let r := say (ZipContains category) r in
                 let folderName := folder_of fo category in
                 let categoryPath := Join (fo_BasePath fo) folderName in
                 match make_folder E (fo_DryRun fo) categoryPath folderName r with
                 | None => count_skipped (say (WarnMkdirFailed folderName) r)
                 | Some r =>
                     let destPath := Join categoryPath (Name zipFile) in
                     if fo_DryRun fo then
                       count_done (say (WouldMove (Name zipFile) folderName) r)
                     else
                       let r := say (Moving (Name zipFile)) r in
                       match atomicMove E (disk r) (Path zipFile) destPath with
                       | (fs', true) => count_done (on_disk fs' r)
                       | (fs', false) =>
                           count_skipped
                             (say (WarnMoveFailed (Name zipFile)) (on_disk fs' r))
                       end
                 end
             end
         end)
    zipFiles (start fs).

(** ** duplicates.go *)

Record DuplicateHandler := mkDuplicateHandler {
  dh_Scanner : Scanner;
  dh_DryRun : bool
}.

Definition NewDuplicateHandler (scanner : Scanner) (dryRun : bool)
  : DuplicateHandler :=
  {| dh_Scanner := scanner; dh_DryRun := dryRun |}.

(** [time.Time.After]. *)
Definition After (t u : Z) : bool := u <? t.

(** [newestFile := files[0]; for _, file := range files { if
    file.LastModified.After(newestFile.LastModified) { newestFile = file } }]
    with [newestFile] a value. *)
Definition newest (first : FileInfo) (files : list FileInfo) : FileInfo :=
  fold_left
    (fun newestFile file =>
       if After (LastModified file) (LastModified newestFile) then file
       else newestFile)
    files first.

(** [os.Remove] of one disposable file, or the line of the dry run. *)
Definition remove_one (E : OS) (dryRun : bool) (file : FileInfo) (r : run) : run :=
  if dryRun then
    count_saved (Size file) (count_done (say (WouldRemove (Name file)) r))
  else
    let r := say (Removing (Name file)) r in
    match os_Remove E (disk r) (Path file) with
    | (fs', true) => count_saved (Size file) (count_done (on_disk fs' r))
    | (_, false) => say (WarnRemoveFailed (Name file)) r
    end.

Definition RemoveDuplicates (E : OS) (dh : DuplicateHandler) (order : list string)
    (fs : fsys) : run :=
  fold_left
    (fun r hash =>
       match Duplicates (dh_Scanner dh) !! hash with
       | Some ((first :: _ :: _) as files) =>
           let newestFile := newest first files in
           fold_left
             (fun r file =>
                if bool_decide (Path file = Path newestFile) then r
                else remove_one E (dh_DryRun dh) file r)
             files (say (Keeping (Name newestFile)) r)
       | _ => r
       end)
    order (start fs).

(** The operator's answers to [fmt.Scanln(&choice)], one per call: a
    number, or [None] for a line that is not a number.  [ask] is the
    [for { ... }] around the question for a group of [n] files; it gives
    the answer that ends the loop and the answers left, or [None] when
    the answers run out before the loop ends. *)
Fixpoint ask (n : nat) (answers : list (option Z)) (r : run)
  : option (Z * list (option Z)) * run :=
  match answers with
  | [] => (None, r)
  | None :: rest => ask n rest (say InvalidNumber r)
  | Some choice :: rest =>
      if choice =? 0 then (Some (0, rest), say SkippingGroup r)
      else if (choice <? 1) || (Z.of_nat n <? choice) then
        ask n rest (say (OutOfRange n) r)
      else (Some (choice, rest), r)
  end.

Definition list_files (files : list FileInfo) (r : run) : run :=
  fold_left (fun r '(i, file) => say (Listing (S i) (Name file)) r)
            (imap (fun i f => (i, f)) files) r.

(** [RemoveDuplicatesInteractive]; the boolean tells whether the run came
    to its end ([false]: it still waits for an answer). *)
Fixpoint interactive_groups (E : OS) (dh : DuplicateHandler)
    (groups : list (list FileInfo)) (answers : list (option Z)) (r : run)
  : run * bool :=
  match groups with
  | [] => (r, true)
  | files :: more =>
      if (length files <? 2)%nat then interactive_groups E dh more answers r
      else
        match ask (length files) answers (list_files files r) with
        | (None, r) => (r, false)
        | (Some (choice, answers), r) =>
            if choice =? 0 then interactive_groups E dh more answers r
            else
              let keep := Z.to_nat (choice - 1) in
              let r :=
                fold_left
                  (fun r '(i, file) =>
                     if (i =? keep)%nat then r
                     else remove_one E (dh_DryRun dh) file r)
                  (imap (fun i f => (i, f)) files)
                  (say (Keeping (Name (default (mkFileInfo [] "" 0 "" "" "" 0 false false)
                                              (files !! keep)))) r) in
              interactive_groups E dh more answers r
        end
  end.

Definition RemoveDuplicatesInteractive (E : OS) (dh : DuplicateHandler)
    (order : list string) (answers : list (option Z)) (fs : fsys) : run * bool :=
  interactive_groups E dh
    (omap (fun hash => Duplicates (dh_Scanner dh) !! hash) order)
    answers (start fs).

Definition copyPatterns : list string :=
  [" (1)"; " (2)"; " (3)"; " (4)"; " (5)"; " (6)"; " (7)"; " (8)"; " (9)"; " (10)";
   " copy"; " copy (1)"; " copy (2)"; " copy (3)"; " copy (4)"; " copy (5)";
   " - copy"; " - copy (1)"; " - copy (2)"; " - copy (3)"; " - copy (4)"; " - copy (5)";
   "_copy"; "_copy(1)"; "_copy(2)"; "_copy(3)"; "_copy(4)"; "_copy(5)";
   "-copy"; "-copy(1)"; "-copy(2)"; "-copy(3)"; "-copy(4)"; "-copy(5)";
   ".copy"; ".copy(1)"; ".copy(2)"; ".copy(3)"; ".copy(4)"; ".copy(5)";
   " (copy)"; " (copy 1)"; " (copy 2)"; " (copy 3)"; " (copy 4)"; " (copy 5)";
   "- (copy)"; "- (copy 1)"; "- (copy 2)"; "- (copy 3)"; "- (copy 4)"; "- (copy 5)";
   "_ (copy)"; "_ (copy 1)"; "_ (copy 2)"; "_ (copy 3)"; "_ (copy 4)"; "_ (copy 5)";
   " duplicate"; " duplicate (1)"; " duplicate (2)"; " duplicate (3)";
   " duplicate (4)"; " duplicate (5)";
   " - duplicate"; " - duplicate (1)"; " - duplicate (2)"; " - duplicate (3)";
   " - duplicate (4)"; " - duplicate (5)";
   "_duplicate"; "_duplicate(1)"; "_duplicate(2)"; "_duplicate(3)";
   "_duplicate(4)"; "_duplicate(5)";
   "-duplicate"; "-duplicate(1)"; "-duplicate(2)"; "-duplicate(3)";
   "-duplicate(4)"; "-duplicate(5)"].

Definition isOriginalFile (filename : string) : bool :=
  let lowerName := ToLower filename in
  forallb (fun pattern => negb (Contains lowerName pattern)) copyPatterns.

(** What [originalFile] points to: an element of [files] ([&files[i]]) or
    the variable of the [range] loop ([&file]), taken in the iteration
    [iter]. *)
Inductive fileptr := PElem (i : nat) | PLoopVar (iter : nat).

(** The file behind the pointer while the loop variable holds
    [files[current]].  From Go 1.22 on every iteration has a variable of
    its own; before, the loop has one variable and [&file] follows it.
    Which of the two holds is fixed by the module's [go] line. *)
Definition deref (perIteration : bool) (files : list FileInfo) (current : nat)
    (p : fileptr) : option FileInfo :=
  match p with
  | PElem i => files !! i
  | PLoopVar iter => files !! (if perIteration then iter else current)
  end.

(** First loop of a group in [RemoveDuplicatesByPattern]. *)
Definition split_by_pattern (files : list FileInfo)
  : option fileptr * list FileInfo :=
  fold_left
    (fun '(originalFile, copyFiles) '(i, file) =>
       if isOriginalFile (Name file) then (Some (PElem i), copyFiles)
       else (originalFile, (copyFiles ++ [file])%list))
    (imap (fun i f => (i, f)) files) (None, []).

(** The loop of the fallback: [originalFile = &files[0]], then [&file] of
    each file later than the one [originalFile] points to. *)
Definition newest_ptr (perIteration : bool) (files : list FileInfo) : fileptr :=
  fold_left
    (fun originalFile '(i, file) =>
       match deref perIteration files i originalFile with
       | Some pointee =>
           if After (LastModified file) (LastModified pointee) then PLoopVar i
           else originalFile
       | None => originalFile
       end)
    (imap (fun i f => (i, f)) files) (PElem 0).

(** For one group: the file [originalFile] points to when the removal
    starts, and [copyFiles]. *)
Definition pattern_decision (perIteration : bool) (files : list FileInfo)
  : option FileInfo * list FileInfo :=
  match split_by_pattern files with
  | (Some p, copyFiles) => (deref perIteration files (length files - 1) p, copyFiles)
  | (None, copyFiles) =>
      let p := newest_ptr perIteration files in
      match deref perIteration files (length files - 1) p with
      | Some originalFile =>
          (Some originalFile,
           (copyFiles ++
            filter (fun file => Path file ≠ Path originalFile) files)%list)
      | None => (None, copyFiles)
      end
  end.

Definition RemoveDuplicatesByPattern (E : OS) (perIteration : bool)
    (dh : DuplicateHandler) (order : list string) (fs : fsys) : run :=
  fold_left
    (fun r hash =>
       match Duplicates (dh_Scanner dh) !! hash with
       | Some ((_ :: _ :: _) as files) =>
           match pattern_decision perIteration files with
           | (Some originalFile, copyFiles) =>
               fold_left (fun r file => remove_one E (dh_DryRun dh) file r)
                         copyFiles (say (Keeping (Name originalFile)) r)
           | (None, _) => r
           end
       | _ => r
       end)
    order (start fs).

(** [MoveDuplicatesToFolder]; [None] is the error return when the folder
    cannot be made. *)
Definition MoveDuplicatesToFolder (E : OS) (dh : DuplicateHandler)
    (destFolder : path) (order : list string) (fs : fsys) : option run :=
  if bool_decide (Duplicates (dh_Scanner dh) = ∅) then Some (start fs)
  else
    match (if dh_DryRun dh then (fs, true) else os_MkdirAll E fs destFolder) with
    | (_, false) => None
    | (fs1, true) =>
        Some (fold_left
          (fun r hash =>
             match Duplicates (dh_Scanner dh) !! hash with
             | Some ((first :: _ :: _) as files) =>
                 let newestFile := newest first files in
                 fold_left
                   (fun r file =>
                      if bool_decide (Path file = Path newestFile) then r
                      else
                        let destPath := Join destFolder (Name file) in
                        if dh_DryRun dh then
                          count_saved (Size file)
                            (count_done
                               (say (WouldMove (Name file) (path_string destFolder)) r))
                        else
                          let r := say (Moving (Name file)) r in
                          match atomicMove E (disk r) (Path file) destPath with
                          | (fs', true) =>
                              count_saved (Size file) (count_done (on_disk fs' r))
                          | (fs', false) =>
                              say (WarnMoveFailed (Name file)) (on_disk fs' r)
                          end)
                   files (say (Keeping (Name newestFile)) r)
             | _ => r
             end)
          order (start fs1))
    end.

(** ** The statements of the specification that the code is compared with *)

(** The seven buckets of the archive classification, in the order in
    which [analyzeZipContents] looks at them. *)
Inductive bucket :=
| BImages | BDocuments | BVideos | BAudio | BApplications | BFonts | BCode.

Definition all_buckets : list bucket :=
  [BImages; BDocuments; BVideos; BAudio; BApplications; BFonts; BCode].

Definition rank (b : bucket) : nat :=
  match b with
  | BImages => 0 | BDocuments => 1 | BVideos => 2 | BAudio => 3
  | BApplications => 4 | BFonts => 5 | BCode => 6
  end%nat.

Definition bucket_count (b : bucket) (t : tally) : Z :=
  match b with
  | BImages => imageCount t
  | BDocuments => documentCount t
  | BVideos => videoCount t
  | BAudio => audioCount t
  | BApplications => applicationCount t
  | BFonts => fontCount t
  | BCode => codeCount t
  end.

Definition bucket_exts (b : bucket) : list string :=
  match b with
  | BImages => image_exts
  | BDocuments => document_exts
  | BVideos => video_exts
  | BAudio => music_exts
  | BApplications => zip_application_exts
  | BFonts => font_exts
  | BCode => code_exts
  end.

Definition bucket_folder (b : bucket) : string :=
  match b with
  | BImages => "Images"
  | BDocuments => "Documents"
  | BVideos => "Videos"
  | BAudio => "Music"
  | BApplications => "Applications"
  | BFonts => "Other"
  | BCode => "Other"
  end.

(** The entries of an archive that fall into a bucket. *)
Definition in_bucket (b : bucket) (f : zipFile) : bool :=
  negb (zIsDir f) && one_of (ToLower (Ext (zName f))) (bucket_exts b).

(** The specification's reading of the classification: the bucket whose
    count is strictly above every other count gives the folder; without
    such a bucket (a tie for the highest count, or nothing counted) the
    answer is "Other". *)
Definition strictly_highest (t : tally) (b : bucket) : bool :=
  forallb (fun b' => (rank b' =? rank b)%nat || (bucket_count b' t <? bucket_count b t))
          all_buckets.

Definition spec_classify (t : tally) : string :=
  match filter (fun b => strictly_highest t b) all_buckets with
  | b :: _ => bucket_folder b
  | [] => "Other"
  end.

(** The specification's reading of the pattern-aware resolution: the one
    looks-original member when there is exactly one, otherwise the newest
    of the whole group; every other member is disposed of. *)
Definition spec_pattern_keeper (files : list FileInfo) : option FileInfo :=
  match filter (fun f => isOriginalFile (Name f)) files with
  | [original] => Some original
  | _ =>
      match files with
      | first :: _ => Some (newest first files)
      | [] => None
      end
  end.

Definition spec_pattern_disposed (files : list FileInfo) : list FileInfo :=
  match spec_pattern_keeper files with
  | Some keeper => filter (fun f => Path f ≠ Path keeper) files
  | None => []
  end.

(** ** Inputs used in the examples below *)

Definition bytes (s : string) : list Byte.byte := list_byte_of_string s.

(** A stand-in for the MD5 digest in the examples: it tells contents
    apart and is never empty. *)
Definition digest (c : list Byte.byte) : string := "md5:" ++ string_of_list_byte c.

Definition entry_of (name : string) : zipFile := mkZipFile name false 120 200.

(** An entry whose header declares 2^63 bytes, compressed and
    uncompressed. *)
Definition huge_entry : zipFile := mkZipFile "sparse.bin" false (2 ^ 63) (2 ^ 63).

(** The archives of the examples, by their bytes. *)
Definition example_archives (c : list Byte.byte) : option (list zipFile) :=
  if String.eqb (string_of_list_byte c) "PK photos, first download" then
    Some [entry_of "beach.jpg"; entry_of "notes.txt"; entry_of "sunset.png"]
  else if String.eqb (string_of_list_byte c) "PK photos, second download" then
    Some [entry_of "beach.jpg"; entry_of "sunset.png"; entry_of "harbour.png"]
  else if String.eqb (string_of_list_byte c) "PK one entry, sizes 2^63" then
    Some [huge_entry]
  else None.

(** A system on which no call fails. *)
Definition quiet : OS :=
  {| rename_fails := fun _ _ => false;
     open_fails := fun _ => false;
     create_fails := fun _ => false;
     copy_fails := fun _ => None;
     sync_fails := fun _ => false;
     remove_fails := fun _ => false;
     mkdir_fails := fun _ => false;
     zip_read := example_archives;
     year_month := fun _ => "2025-08" |}.

(** The same system with source and destination on different volumes and
    a copy that breaks after [n] bytes. *)
Definition other_volume (broken_after : option nat) : OS :=
  {| rename_fails := fun _ _ => true;
     open_fails := fun _ => false;
     create_fails := fun _ => false;
     copy_fails := fun _ => broken_after;
     sync_fails := fun _ => false;
     remove_fails := fun _ => false;
     mkdir_fails := fun _ => false;
     zip_read := example_archives;
     year_month := fun _ => "2025-08" |}.

Definition a_file (name : string) (mtime : Z) (content : string) : entry :=
  EFile name (Z.of_nat (String.length content)) mtime true true (bytes content).

(** ** Vocabulary of the statements *)

(** The number of entries of an archive that fall into a bucket. *)
Definition entries_in (b : bucket) (files : list zipFile) : Z :=
  Z.of_nat (length (filter (fun f => in_bucket b f) files)).

(** The extension as [ScanDirectory] records it. *)
Definition scan_ext (name : string) : string :=
  let ext := ToLower (Ext name) in
  if String.eqb ext "" then "no_extension" else ext.

(** What [ScanDirectory] puts into a record when it makes it. *)
Definition as_scanned (f : FileInfo) : Prop :=
  Extension f = scan_ext (Name f) /\
  Category f = determineCategory (Extension f) (Name f) /\
  IsZip f = String.eqb (Extension f) ".zip".

Definition clear_duplicate (f : FileInfo) : FileInfo :=
  {| Path := Path f; Name := Name f; Size := Size f; Extension := Extension f;
     Category := Category f; Hash := Hash f; LastModified := LastModified f;
     IsDuplicate := false; IsZip := IsZip f |}.

(** The sum of the uncompressed sizes that the entries declare. *)
Definition declared_total (files : list zipFile) : Z :=
  fold_right (fun f acc => UncompressedSize64 f + acc) 0 files.

(** The archive of [TestAnalyzeZipContents]. *)
Definition tie_archive : list zipFile :=
  [entry_of "image1.jpg"; entry_of "image2.png"; entry_of "doc1.pdf";
   entry_of "doc2.txt"].

Definition rar_tree : entry := EDir "Downloads" true [a_file "backup.rar" 7 "Rar!"].

(** The state of the scanner between the walk and [findDuplicates]: no
    group yet, no flag yet, and in [Files] and [Categories] the records
    as the callback made them. *)
Definition walked (s : Scanner) : Prop :=
  Duplicates s = ∅ /\
  Forall (fun f => IsDuplicate f = false /\ as_scanned f) (Files s) /\
  map_Forall (fun _ files => Forall (fun f => IsDuplicate f = false /\ as_scanned f) files)
             (Categories s).

(** The files of a list with a given hash. *)
Definition with_hash (h : string) (files : list FileInfo) : list FileInfo :=
  filter (fun f => Hash f = h) files.

(** A hash that at least two files of the list share. *)
Definition is_shared (files : list FileInfo) (h : string) : bool :=
  negb (String.eqb h "") && (2 <=? length (with_hash h files))%nat.

(** The flags as the specification describes them: set on the files whose
    non-empty hash another file shares. *)
Definition flag_shared (files : list FileInfo) : list FileInfo :=
  (fun f => if is_shared files (Hash f) then set_duplicate f else f) <$> files.

(** Marking as a map: the flag on every record whose path is in [P]. *)
Definition mark_if (P : path -> Prop) `{!forall p, Decision (P p)} (f : FileInfo)
  : FileInfo :=
  if decide (P (Path f)) then set_duplicate f else f.

(** The paths that the second loop of [findDuplicates] marks. *)
Definition marked_paths (order : list (string * list FileInfo)) : list path :=
  concat (map (fun '(_, files) =>
                 if (1 <? length files)%nat then Path <$> files else [])
              order).

Definition insert_group (D : gmap string (list FileInfo))
    (group : string * list FileInfo) : gmap string (list FileInfo) :=
  if (1 <? length group.2)%nat then <[group.1 := group.2]> D else D.

(** The record that the scan of [rar_tree] makes. *)
Definition rar_record : FileInfo :=
  {| Path := ["Downloads"; "backup.rar"]; Name := "backup.rar"; Size := 4;
     Extension := ".rar"; Category := "Archives"; Hash := "md5:Rar!";
     LastModified := 7; IsDuplicate := false; IsZip := false |}.

(** Two downloads of one picture, a document, and a file that cannot be
    read to the end. *)
Definition twins_tree : entry :=
  EDir "Downloads" true
    [a_file "holiday (1).jpg" 20 "JFIF sea";
     a_file "holiday.jpg" 10 "JFIF sea";
     a_file "letter.txt" 5 "Dear all";
     EFile "locked.bin" 8 3 true false (bytes "JFIF sea")].

Definition scan_of (root : path) (tree : entry) : Scanner :=
  default NewScanner (ScanDirectory digest root tree NewScanner).

(** The file system that holds a directory tree at [p]. *)
Fixpoint tree_nodes (p : path) (e : entry) {struct e} : list (path * node) :=
  match e with
  | EFile _ _ _ _ _ content => [(p, NFile content)]
  | EDir _ _ children =>
      (p, NDir) ::
      (fix below (l : list entry) : list (path * node) :=
         match l with
         | [] => []
         | c :: l' => (tree_nodes (Join p (entry_name c)) c ++ below l')%list
         end) children
  | EBroken _ => []
  end.

Definition disk_of (root : path) (tree : entry) : fsys :=
  list_to_map (tree_nodes root tree).

Definition twins_scan : Scanner := scan_of ["Downloads"] twins_tree.

(** One archive in the scanned folder. *)
Definition one_archive_tree : entry :=
  EDir "Downloads" true [a_file "photos.zip" 30 "PK photos, first download"].

Definition looks_original (f : FileInfo) : Prop := isOriginalFile (Name f).

Definition a_record (dir : path) (name : string) (mtime : Z) (hash : string)
  : FileInfo :=
  {| Path := Join dir name; Name := name; Size := 9;
     Extension := scan_ext name;
     Category := determineCategory (scan_ext name) name;
     Hash := hash; LastModified := mtime; IsDuplicate := false;
     IsZip := String.eqb (scan_ext name) ".zip" |}.

(** A group of two files that both look original; the first is the newer. *)
Definition report : FileInfo := a_record ["Downloads"] "report.pdf" 20 "md5:r".
Definition report_final : FileInfo :=
  a_record ["Downloads"] "report-final.pdf" 10 "md5:r".
Definition two_originals : list FileInfo := [report; report_final].

(** A group in which every name carries a copy indicator. *)
Definition all_copies : list FileInfo :=
  [a_record ["Downloads"] "notes (1).txt" 10 "md5:n";
   a_record ["Downloads"] "notes (2).txt" 30 "md5:n";
   a_record ["Downloads"] "notes copy.txt" 20 "md5:n"].

(** The folder with an "Images" folder next to the archive. *)
Definition archive_and_folder_tree : entry :=
  EDir "Downloads" true
    [EDir "Images" true [];
     a_file "photos.zip" 30 "PK photos, first download"].

(** The two records of the group that the scan of [twins_tree] finds. *)
Definition holiday_copy : FileInfo :=
  {| Path := ["Downloads"; "holiday (1).jpg"]; Name := "holiday (1).jpg"; Size := 8;
     Extension := ".jpg"; Category := "Images"; Hash := "md5:JFIF sea";
     LastModified := 20; IsDuplicate := false; IsZip := false |}.
Definition holiday : FileInfo :=
  {| Path := ["Downloads"; "holiday.jpg"]; Name := "holiday.jpg"; Size := 8;
     Extension := ".jpg"; Category := "Images"; Hash := "md5:JFIF sea";
     LastModified := 10; IsDuplicate := false; IsZip := false |}.

(** Two downloads of a picture and two downloads of an archive, with a
    letter. *)
Definition duplicates_tree : entry :=
  EDir "Downloads" true
    [a_file "holiday (1).jpg" 20 "JFIF sea";
     a_file "holiday.jpg" 10 "JFIF sea";
     a_file "letter.txt" 5 "Dear all";
     a_file "photos (1).zip" 40 "PK photos, first download";
     a_file "photos.zip" 30 "PK photos, first download"].

(** An archive in the folder and another archive of the same name already
    in "Images". *)
Definition archive_conflict_tree : entry :=
  EDir "Downloads" true
    [EDir "Images" true [a_file "photos.zip" 50 "PK photos, second download"];
     a_file "photos.zip" 30 "PK photos, first download"].

(** A folder that already holds a directory with the name of the
    permission probe. *)
Definition probe_tree : entry :=
  EDir "Downloads" true
    [EDir ".test_permissions" true [a_file "notes.txt" 3 "keep me"];
     a_file "holiday.jpg" 10 "JFIF sea"].

(** An archive of 24 bytes whose only entry declares 2^63 bytes. *)
Definition wrapped_tree : entry :=
  EDir "Downloads" true [a_file "tiny.zip" 60 "PK one entry, sizes 2^63"].

(** ** main.go *)

Inductive path_error :=
| PathEmpty
| PathInvalid
| PathTraversal
| NoHomeDirectory
| PathOutside.

(** What [validatePath] asks of the system: [filepath.Abs] (which knows
    the working directory), [os.UserHomeDir] and [os.TempDir]. *)
Record Env := mkEnv {
  Abs : string -> option string;
  UserHomeDir : option string;
  TempDir : string
}.

(** [validatePath]; [None] is the [nil] return. *)
Definition validatePath (V : Env) (path : string) : option path_error :=
  if String.eqb path "" then Some PathEmpty
  else
    match Abs V path with
    | None => Some PathInvalid
    | Some absPath =>
        if Contains absPath ".." then Some PathTraversal
        else
          match UserHomeDir V with
          | None => Some NoHomeDirectory
          | Some homeDir =>
              let tempDir := TempDir V in
              if negb (HasPrefix absPath homeDir) &&
                 negb (HasPrefix absPath tempDir) &&
                 negb (HasPrefix absPath "/tmp") &&
                 negb (HasPrefix absPath "/var/folders")
              then Some PathOutside
              else None
          end
    end.

(** ** Further vocabulary *)

(** The categories that [determineCategory] knows. *)
Definition scan_categories : list string :=
  ["Images"; "Documents"; "Videos"; "Music"; "Applications"; "Archives";
   "Disk Images"; "Other"].

(** The names of the size categories that hold a file. *)
Definition size_categories_of (file : FileInfo) : list string :=
  (fun c => c.1.1) <$>
  filter (fun c => in_size_category c.1.2 c.2 file = true) sizeCategories.

(** A system for paths that are absolute already, with a home directory. *)
Definition home_of_al : Env :=
  {| Abs := fun path => Some path;
     UserHomeDir := Some "/home/al";
     TempDir := "/tmp" |}.

(** The records so far are those of files that are not hidden and not
    inside an application bundle, and [Categories] holds them by
    category, in the order of [Files]. *)
Definition listed (s : Scanner) : Prop :=
  Forall (fun f => HasPrefix (Name f) "." = false /\
                   Contains (path_string (Path f)) ".app/Contents/" = false)
         (Files s) /\
  forall category,
    get (Categories s) category = filter (fun f => Category f = category) (Files s).

(** An entry of 200 MiB that is stored in 1000 bytes. *)
Definition bomb_entry : zipFile :=
  mkZipFile "zeros.bin" false 1000 (200 * 1024 * 1024).

(** The size category by the thresholds of [OrganizeBySize]. *)
Definition size_class (size : Z) : string :=
  if size <? 1024 * 1024 then "Tiny"
  else if size <? 10 * 1024 * 1024 then "Small"
  else if size <? 100 * 1024 * 1024 then "Medium"
  else if size <? 1024 * 1024 * 1024 then "Large"
  else "Huge".

(** Nothing or a regular file at a path: not a directory. *)
Definition regular (fs : fsys) (p : path) : Prop :=
  fs !! p = None \/ exists c, fs !! p = Some (NFile c).
(** * Properties *)

(** ** Sanity checks of the helpers *)

Example Ext_examples :
  Ext "archive.tar.gz" = ".gz" /\ Ext "README" = "" /\ Ext "a.b/c" = "" /\
  Ext "dir/pic.JPG" = ".JPG" /\ ToLower "Photo.JPG" = "photo.jpg".
Proof. repeat split; reflexivity. Qed.

Example determineCategory_examples :
  determineCategory ".jpg" "image.jpg" = "Images" /\
  determineCategory ".iso" "disk.iso" = "Disk Images" /\
  determineCategory ".xyz" "unknown.xyz" = "Other" /\
  determineCategory ".bin" "Setup.bin" = "Applications" /\
  determineCategory ".txt" "guide.txt" = "Documents".
Proof. repeat split; reflexivity. Qed.

Example isOriginalFile_examples :
  isOriginalFile "report.pdf" = true /\
  isOriginalFile "report (1).pdf" = false /\
  isOriginalFile "report copy.pdf" = false /\
  isOriginalFile "report_copy.pdf" = false /\
  isOriginalFile "file - (copy).txt" = false /\
  isOriginalFile "File-Duplicate.txt" = false.
Proof. repeat split; reflexivity. Qed.

Example float64_of_uint64_rounds_to_even :
  float64_of_uint64 (2 ^ 53 + 1) = 9007199254740992%float /\
  float64_of_uint64 (2 ^ 53 + 3) = 9007199254740996%float.
Proof. split; vm_compute; reflexivity. Qed.

(** ** Membership in a [switch] case list *)

Lemma one_of_spec (x : string) (cases : list string) :
  one_of x cases = true <-> x ∈ cases.
Proof.
  unfold one_of. rewrite existsb_exists. split.
  - intros (y & Hy & Heq). apply String.eqb_eq in Heq. subst.
    by apply list_elem_of_In.
  - intros Hx. exists x. split; [by apply list_elem_of_In | apply String.eqb_refl].
Qed.

(** The case lists of a [switch] do not overlap, so the order of the
    cases plays no role. *)
Ltac case_list H :=
  apply one_of_spec in H;
  repeat (apply elem_of_cons in H as [-> | H]; [reflexivity |]);
  by apply elem_of_nil in H.

Lemma archive_ext_category (ext name : string) :
  one_of ext archive_exts = true -> determineCategory ext name = "Archives".
Proof. intros H. case_list H. Qed.

Lemma category_archive_ext (ext name : string) :
  determineCategory ext name = "Archives" -> one_of ext archive_exts = true.
Proof.
  unfold determineCategory.
  repeat match goal with
         | |- context [if ?b then _ else _] => destruct b eqn:?; try discriminate
         end; auto.
Qed.

(** ** Archive classification ([analyzeZipContents]) *)

Ltac known_ext H :=
  apply one_of_spec in H;
  repeat (apply elem_of_cons in H as [-> | H];
          [match goal with b : bucket |- _ => destruct b end; cbn; lia |]);
  by apply elem_of_nil in H.

(** Each entry adds one to the counter of its bucket and to no other. *)
Lemma count_entry_bucket (b : bucket) (t : tally) (f : zipFile) :
  bucket_count b (count_entry t f)
  = bucket_count b t + (if in_bucket b f then 1 else 0).
Proof.
  unfold count_entry, in_bucket. destruct (zIsDir f); [simpl; lia |].
  cbn [negb andb].
  destruct t as [i d v a ap fo c].
  generalize (ToLower (Ext (zName f))). intros ext.
  destruct (one_of ext image_exts) eqn:H1; [known_ext H1 |].
  destruct (one_of ext document_exts) eqn:H2; [known_ext H2 |].
  destruct (one_of ext video_exts) eqn:H3; [known_ext H3 |].
  destruct (one_of ext music_exts) eqn:H4; [known_ext H4 |].
  destruct (one_of ext zip_application_exts) eqn:H5; [known_ext H5 |].
  destruct (one_of ext font_exts) eqn:H6; [known_ext H6 |].
  destruct (one_of ext code_exts) eqn:H7; [known_ext H7 |].
  destruct b; unfold bucket_count, bucket_exts;
    cbn [imageCount documentCount videoCount audioCount applicationCount
         fontCount codeCount];
    rewrite ?H1, ?H2, ?H3, ?H4, ?H5, ?H6, ?H7; lia.
Qed.

Lemma fold_count_entry_bucket (b : bucket) (files : list zipFile) (t : tally) :
  bucket_count b (fold_left count_entry files t)
  = bucket_count b t + Z.of_nat (length (filter (fun f => in_bucket b f) files)).
Proof.
  revert t. induction files as [| f files IH]; intros t; simpl; [lia |].
  rewrite IH, count_entry_bucket. destruct (in_bucket b f) eqn:Hb.
  - rewrite filter_cons_True; [| by apply Is_true_true]. simpl length. lia.
  - rewrite filter_cons_False; [| by apply Is_true_false]. lia.
Qed.

(** The counters of [analyzeZipContents] are the numbers of entries per
    bucket, directories left out. *)
Lemma tally_counts (b : bucket) (files : list zipFile) :
  bucket_count b (fold_left count_entry files no_tally)
  = Z.of_nat (length (filter (fun f => in_bucket b f) files)).
Proof. rewrite fold_count_entry_bucket. by destruct b. Qed.

Lemma count_entry_dir (t : tally) (f : zipFile) :
  zIsDir f = true -> count_entry t f = t.
Proof. unfold count_entry. by intros ->. Qed.

Ltac split_ltb :=
  repeat match goal with
         | |- context [?x <? ?y] =>
             lazymatch x with
             | context [if _ then _ else _] => fail
             | _ => destruct (Z.ltb_spec x y); simpl
             end
         end.

(** The bucket that [dominant] picks: the first one, in the order of the
    code, whose positive count no other bucket exceeds. *)
Lemma dominant_first_highest (t : tally) (b : bucket) :
  0 < bucket_count b t ->
  (forall b', bucket_count b' t <= bucket_count b t) ->
  (forall b', (rank b' < rank b)%nat -> bucket_count b' t < bucket_count b t) ->
  dominant t = bucket_folder b.
Proof.
  intros Hpos Hmax Hfirst.
  pose proof (Hmax BImages) as M1. pose proof (Hmax BDocuments) as M2.
  pose proof (Hmax BVideos) as M3. pose proof (Hmax BAudio) as M4.
  pose proof (Hmax BApplications) as M5. pose proof (Hmax BFonts) as M6.
  pose proof (Hmax BCode) as M7.
  pose proof (Hfirst BImages) as F1. pose proof (Hfirst BDocuments) as F2.
  pose proof (Hfirst BVideos) as F3. pose proof (Hfirst BAudio) as F4.
  pose proof (Hfirst BApplications) as F5. pose proof (Hfirst BFonts) as F6.
  clear Hmax Hfirst.
  destruct t as [i d v a ap fo c].
  destruct b; simpl in *; unfold dominant, consider; simpl;
    split_ltb; try reflexivity; exfalso; lia.
Qed.

Lemma dominant_nothing_counted (t : tally) :
  (forall b, bucket_count b t <= 0) -> dominant t = "Other".
Proof.
  intros H.
  pose proof (H BImages). pose proof (H BDocuments). pose proof (H BVideos).
  pose proof (H BAudio). pose proof (H BApplications). pose proof (H BFonts).
  pose proof (H BCode). clear H.
  destruct t as [i d v a ap fo c].
  simpl in *; unfold dominant, consider; simpl; split_ltb; try reflexivity; exfalso; lia.
Qed.

(** C4, as the code has it: the counters hold the entries per bucket with
    directory entries left out; the answer is the folder of the first
    bucket, in the order images, documents, videos, audio, applications,
    fonts, code, whose count is positive and not exceeded by another (so
    a bucket strictly above all others wins, and on a tie for the highest
    count the earliest of the tied buckets wins); fonts and code give
    "Other"; when nothing is counted the answer is "Other". *)
Theorem analyzeZipContents_first_highest (files : list zipFile) :
  (forall b, bucket_count b (fold_left count_entry files no_tally) = entries_in b files) /\
  (forall b,
     0 < entries_in b files ->
     (forall b', entries_in b' files <= entries_in b files) ->
     (forall b', (rank b' < rank b)%nat -> entries_in b' files < entries_in b files) ->
     analyzeZipContents files = bucket_folder b) /\
  ((forall b, entries_in b files = 0) -> analyzeZipContents files = "Other") /\
  (forall f, zIsDir f = true ->
     analyzeZipContents (files ++ [f]) = analyzeZipContents files) /\
  bucket_folder BFonts = "Other" /\ bucket_folder BCode = "Other".
Proof.
  split; [intros b; apply tally_counts |].
  split.
  { intros b Hpos Hmax Hfirst. unfold analyzeZipContents.
    apply dominant_first_highest; rewrite ?tally_counts; [done | |].
    - intros b'. rewrite tally_counts. apply Hmax.
    - intros b' Hb'. rewrite tally_counts. by apply Hfirst. }
  split.
  { intros Hzero. apply dominant_nothing_counted. intros b.
    rewrite tally_counts. specialize (Hzero b). unfold entries_in in Hzero. lia. }
  split; [| done].
  intros f Hf. unfold analyzeZipContents.
  by rewrite fold_left_app; simpl; rewrite count_entry_dir.
Qed.

Lemma analyzeZipContents_first_highest_witness :
  analyzeZipContents tie_archive = "Images".
Proof.
  apply (proj1 (proj2 (analyzeZipContents_first_highest tie_archive)) BImages).
  - vm_compute. reflexivity.
  - intros []; vm_compute; discriminate.
  - intros [] H; simpl in H; lia.
Defined.

(** C4 as stated fails on the archive of the repository's own test: two
    images and two documents tie for the highest count, no bucket is
    strictly highest, and the answer is "Images", not "Other". *)
Lemma analyzeZipContents_tie_counterexample :
  entries_in BImages tie_archive = 2 /\
  entries_in BDocuments tie_archive = 2 /\
  (forall b, entries_in b tie_archive <= 2) /\
  spec_classify (fold_left count_entry tie_archive no_tally) = "Other" /\
  analyzeZipContents tie_archive = "Images" /\
  analyzeZipContents tie_archive
  <> spec_classify (fold_left count_entry tie_archive no_tally).
Proof.
  repeat split; try (vm_compute; reflexivity).
  - intros []; vm_compute; discriminate.
  - vm_compute. discriminate.
Qed.

(** ** The walk *)

Section ScanFacts.

Variable md5hex : list Byte.byte -> string.

(** What the callback keeps, the whole walk keeps. *)
Lemma walk_preserves (Q : Scanner -> Prop) :
  (forall p name size mtime openable hashable content s,
     Q s -> Q (visit_file md5hex p name size mtime openable hashable content s).1) ->
  forall e p s, Q s -> Q (walk md5hex p e s).1.
Proof.
  intros Hvisit. fix IH 1.
  intros [name size mtime openable hashable content | name readable children | name]
         p s Hs; simpl.
  - by apply Hvisit.
  - destruct readable; simpl; [| done].
    unfold visit_dir.
    destruct (HasPrefix name "."); [done |].
    destruct (HasSuffix name ".app"); [done |].
    revert s Hs. induction children as [| c rest IHrest]; intros s Hs; [done |].
    specialize (IH c (Join p (entry_name c)) s Hs).
    destruct (walk md5hex (Join p (entry_name c)) c s) as [s' r].
    destruct r; simpl in IH; [by apply IHrest | | done].
    destruct (is_dir c); [by apply IHrest | done].
  - done.
Qed.

Lemma Walk_preserves (Q : Scanner -> Prop) :
  (forall p name size mtime openable hashable content s,
     Q s -> Q (visit_file md5hex p name size mtime openable hashable content s).1) ->
  forall e p s, Q s -> Q (Walk md5hex p e s).1.
Proof.
  intros Hvisit e p s Hs. unfold Walk.
  pose proof (walk_preserves Q Hvisit e p s Hs) as H.
  destruct (walk md5hex p e s) as [s' []]; done.
Qed.

Lemma walked_NewScanner : walked NewScanner.
Proof. repeat split; [constructor | apply map_Forall_empty]. Qed.

Lemma get_Forall {A} (P : A -> Prop) (m : gmap string (list A)) (k : string) :
  map_Forall (fun _ l => Forall P l) m -> Forall P (get m k).
Proof.
  intros Hm. unfold get. destruct (m !! k) as [l |] eqn:Hk; simpl; [| constructor].
  by apply (Hm k).
Qed.

Lemma visit_file_walked p name size mtime openable hashable content s :
  walked s ->
  walked (visit_file md5hex p name size mtime openable hashable content s).1.
Proof.
  intros (HD & HF & HC). unfold visit_file.
  destruct (HasPrefix name "."); [done |].
  destruct (Contains (path_string p) ".app/Contents/"); [done |].
  destruct (negb openable); [done |].
  simpl. split; [done |].
  assert (Hnew : forall h,
    (fun f => IsDuplicate f = false /\ as_scanned f)
      {| Path := p; Name := name; Size := size;
         Extension := scan_ext name;
         Category := determineCategory (scan_ext name) name;
         Hash := h; LastModified := mtime; IsDuplicate := false;
         IsZip := String.eqb (scan_ext name) ".zip" |}).
  { intros h. by repeat split. }
  split.
  - apply Forall_app. split; [done |]. constructor; [apply Hnew | constructor].
  - apply map_Forall_insert_2; [| done].
    apply Forall_app. split; [by apply get_Forall |].
    constructor; [apply Hnew | constructor].
Qed.

Lemma Walk_walked e p : walked (Walk md5hex p e NewScanner).1.
Proof.
  apply Walk_preserves; [| apply walked_NewScanner].
  intros. by apply visit_file_walked.
Qed.

End ScanFacts.

(** ** Duplicate detection ([findDuplicates]) *)

Lemma group_fold_lookup (files : list FileInfo) (m : gmap string (list FileInfo))
    (h : string) :
  fold_left group_step files m !! h
  = match m !! h, (if decide (h = "") then [] else with_hash h files) with
    | None, [] => None
    | o, l => Some (default [] o ++ l)%list
    end.
Proof.
  revert m. induction files as [| f rest IH]; intros m; simpl.
  - unfold with_hash. rewrite filter_nil.
    destruct (m !! h) as [l |]; simpl; destruct (decide (h = ""));
      by rewrite ?app_nil_r.
  - rewrite IH. unfold group_step, with_hash.
    destruct (String.eqb_spec (Hash f) "") as [Hf | Hf].
    + destruct (decide (h = "")) as [-> | Hh]; [done |].
      rewrite filter_cons_False by congruence. done.
    + destruct (decide (Hash f = h)) as [<- | Hne].
      * rewrite lookup_insert_eq. destruct (decide (Hash f = "")); [done |].
        rewrite filter_cons_True by done. unfold get.
        destruct (m !! Hash f) as [l |]; simpl; by rewrite <- ?app_assoc.
      * rewrite lookup_insert_ne by done.
        rewrite filter_cons_False by done. done.
Qed.

(** The table of the first loop: under every non-empty hash the files
    that carry it, in the order of the scan. *)
Lemma group_by_hash_lookup (files : list FileInfo) (h : string) (g : list FileInfo) :
  group_by_hash files !! h = Some g <->
  h <> "" /\ g = with_hash h files /\ g <> [].
Proof.
  unfold group_by_hash.
  rewrite group_fold_lookup, lookup_empty. simpl.
  destruct (decide (h = "")) as [-> | Hh].
  - split; [done | by intros []].
  - destruct (with_hash h files) eqn:Hw.
    + split; [done | intros (_ & -> & ?); done].
    + split; [intros [= <-]; done | intros (_ & -> & _); done].
Qed.

(** [mark_path] touches the flag alone. *)
Lemma mark_path_clear (p : path) (files : list FileInfo) :
  clear_duplicate <$> mark_path p files = clear_duplicate <$> files.
Proof.
  induction files as [| f rest IH]; [done |].
  cbn [mark_path]. case_bool_decide; rewrite !fmap_cons; [done | by rewrite IH].
Qed.

Lemma clear_duplicate_fields (f g : FileInfo) :
  clear_duplicate f = clear_duplicate g ->
  Path f = Path g /\ Name f = Name g /\ Hash f = Hash g /\
  Extension f = Extension g /\ Category f = Category g /\ IsZip f = IsZip g /\
  Size f = Size g /\ LastModified f = LastModified g.
Proof. destruct f, g. unfold clear_duplicate. simpl. intros [=]. by subst. Qed.

(** When no two records share a path, marking a path is a map over the
    records. *)
Lemma mark_path_unique (p : path) (files : list FileInfo) :
  NoDup (Path <$> files) ->
  mark_path p files = mark_if (fun q => q = p) <$> files.
Proof.
  induction files as [| f rest IH]; [done |].
  rewrite fmap_cons. intros [Hf Hrest]%NoDup_cons.
  cbn [mark_path]. rewrite fmap_cons. unfold mark_if at 1.
  case_bool_decide as Hp; case_decide; try done.
  - f_equal. clear IH Hrest. induction rest as [| g rest IH]; [done |].
    rewrite fmap_cons in *. apply not_elem_of_cons in Hf as [Hg Hf].
    unfold mark_if at 1. case_decide; [congruence |]. f_equal. by apply IH.
  - f_equal. by apply IH.
Qed.

Lemma mark_if_Path P `{!forall p, Decision (P p)} (f : FileInfo) :
  Path (mark_if P f) = Path f.
Proof. unfold mark_if. by case_decide. Qed.

Lemma mark_all_unique (group scanned : list FileInfo) :
  NoDup (Path <$> scanned) ->
  mark_all group scanned = mark_if (fun q => q ∈ Path <$> group) <$> scanned.
Proof.
  unfold mark_all. revert scanned.
  induction group as [| g group IH]; intros scanned Hnd; simpl.
  - rewrite <- (list_fmap_id scanned) at 1. apply list_fmap_ext.
    intros i f _. unfold mark_if. case_decide as H; [| done].
    by apply elem_of_nil in H.
  - rewrite IH.
    + rewrite mark_path_unique by done. rewrite <- list_fmap_compose.
      apply list_fmap_ext. intros i f _. simpl. unfold mark_if at 1 3.
      rewrite mark_if_Path. unfold mark_if.
      repeat case_decide; try done; set_solver.
    + rewrite mark_path_unique by done. rewrite <- list_fmap_compose.
      erewrite list_fmap_ext; [exact Hnd |]. intros i f _. simpl.
      apply mark_if_Path.
Qed.

Lemma mark_groups_Categories order s :
  Categories (mark_groups order s) = Categories s.
Proof.
  unfold mark_groups. revert s.
  induction order as [| [h g] order IH]; intros s; simpl; [done |].
  rewrite IH. by destruct (1 <? length g)%nat.
Qed.

Lemma mark_groups_Duplicates order s :
  Duplicates (mark_groups order s) = fold_left insert_group order (Duplicates s).
Proof.
  unfold mark_groups. revert s.
  induction order as [| [h g] order IH]; intros s; simpl; [done |].
  rewrite IH. unfold insert_group. simpl. by destruct (1 <? length g)%nat.
Qed.

Lemma mark_groups_clear order s :
  clear_duplicate <$> Files (mark_groups order s) = clear_duplicate <$> Files s.
Proof.
  unfold mark_groups. revert s.
  induction order as [| [h g] order IH]; intros s; simpl; [done |].
  rewrite IH. destruct (1 <? length g)%nat; [| done]. simpl.
  unfold mark_all. generalize (Files s).
  induction g as [| f g IHg]; intros l; simpl; [done |].
  by rewrite IHg, mark_path_clear.
Qed.

Lemma clear_Path (l l' : list FileInfo) :
  clear_duplicate <$> l = clear_duplicate <$> l' -> Path <$> l = Path <$> l'.
Proof.
  intros H. apply (f_equal (fmap Path)) in H.
  by rewrite <- !list_fmap_compose in H.
Qed.

Lemma mark_groups_Files order s :
  NoDup (Path <$> Files s) ->
  Files (mark_groups order s)
  = mark_if (fun q => q ∈ marked_paths order) <$> Files s.
Proof.
  unfold mark_groups. revert s.
  induction order as [| [h g] order IH]; intros s Hnd; cbn [fold_left].
  - rewrite <- (list_fmap_id (Files s)) at 1. apply list_fmap_ext.
    intros i f _. unfold mark_if. case_decide as H; [| done].
    by apply elem_of_nil in H.
  - assert (Hstep : Files (mark_group s (h, g))
                    = mark_if (fun q => q ∈ (if (1 <? length g)%nat
                                             then Path <$> g else [])) <$> Files s).
    { simpl. destruct (1 <? length g)%nat; simpl.
      - by apply mark_all_unique.
      - rewrite <- (list_fmap_id (Files s)) at 1. apply list_fmap_ext.
        intros i f _. unfold mark_if. case_decide as H; [| done].
        by apply elem_of_nil in H. }
    rewrite IH.
    + rewrite Hstep, <- list_fmap_compose. apply list_fmap_ext.
      intros i f _. simpl. unfold mark_if at 1 3. rewrite mark_if_Path.
      unfold marked_paths. simpl. fold (marked_paths order).
      unfold mark_if.
      repeat case_decide; try done;
        match goal with
        | H : _ ∈ (_ ++ _)%list |- _ => apply elem_of_app in H as []; done
        | H : ¬ _ ∈ (_ ++ _)%list |- _ =>
            exfalso; apply H, elem_of_app; by eauto
        end.
    + rewrite Hstep, <- list_fmap_compose.
      erewrite list_fmap_ext; [exact Hnd |]. intros i f _. simpl.
      apply mark_if_Path.
Qed.

Lemma insert_groups_lookup (order : list (string * list FileInfo))
    (D : gmap string (list FileInfo)) (k : string) :
  NoDup order.*1 ->
  fold_left insert_group order D !! k
  = match (list_to_map order : gmap string (list FileInfo)) !! k with
    | Some g => if (1 <? length g)%nat then Some g else D !! k
    | None => D !! k
    end.
Proof.
  revert D. induction order as [| [h g] order IH]; intros D Hnd; [done |].
  rewrite fmap_cons in Hnd. apply NoDup_cons in Hnd as [Hh Hnd].
  cbn [fold_left list_to_map foldr]. rewrite IH by done.
  destruct (decide (h = k)) as [-> | Hne].
  - rewrite lookup_insert_eq.
    rewrite (not_elem_of_list_to_map_1 _ _ Hh).
    unfold insert_group. simpl. destruct (1 <? length g)%nat; [| done].
    by rewrite lookup_insert_eq.
  - rewrite (lookup_insert_ne _ h k) by done.
    assert (insert_group D (h, g) !! k = D !! k) as ->; [| done].
    unfold insert_group. simpl. destruct (1 <? length g)%nat; [| done].
    by rewrite lookup_insert_ne.
Qed.

Lemma marked_paths_spec (order : list (string * list FileInfo)) (q : path) :
  q ∈ marked_paths order <->
  exists h g, (h, g) ∈ order /\ (1 < length g)%nat /\ q ∈ Path <$> g.
Proof.
  unfold marked_paths. rewrite list_elem_of_In, in_concat. split.
  - intros (l & Hl & Hq). apply in_map_iff in Hl as ([h g] & <- & Hin).
    destruct (1 <? length g)%nat eqn:Hlen; [| by destruct Hq].
    exists h, g. repeat split.
    + by apply list_elem_of_In.
    + by apply Nat.ltb_lt.
    + by apply list_elem_of_In.
  - intros (h & g & Hin & Hlen & Hq).
    exists (Path <$> g). split; [| by apply list_elem_of_In].
    apply in_map_iff. exists (h, g). split; [| by apply list_elem_of_In].
    by apply Nat.ltb_lt in Hlen as ->.
Qed.

Lemma is_shared_spec (files : list FileInfo) (h : string) :
  is_shared files h = true <-> h <> "" /\ (2 <= length (with_hash h files))%nat.
Proof.
  unfold is_shared. rewrite andb_true_iff, negb_true_iff, Nat.leb_le.
  by rewrite String.eqb_neq.
Qed.

(** The table that [findDuplicates] leaves: under every hash that two
    files or more share, those files; nothing else. *)
Lemma findDuplicates_Duplicates (s : Scanner) (k : string) (g : list FileInfo) :
  Duplicates s = ∅ ->
  Duplicates (findDuplicates s) !! k = Some g <->
  is_shared (Files s) k = true /\ g = with_hash k (Files s).
Proof.
  intros HD. unfold findDuplicates.
  rewrite mark_groups_Duplicates, insert_groups_lookup
    by apply NoDup_fst_map_to_list.
  rewrite list_to_map_to_list, HD, is_shared_spec.
  destruct (group_by_hash (Files s) !! k) as [g' |] eqn:Hk.
  - apply group_by_hash_lookup in Hk as (Hne & -> & Hnil).
    destruct (1 <? length (with_hash k (Files s)))%nat eqn:Hlen.
    + apply Nat.ltb_lt in Hlen. split; [intros [= <-] | intros (_ & ->)]; repeat split; try done; lia.
    + apply Nat.ltb_ge in Hlen. rewrite lookup_empty.
      split; [done | intros ((_ & ?) & _); lia].
  - rewrite lookup_empty. split; [done |]. intros ((Hne & Hlen) & ->).
    assert (group_by_hash (Files s) !! k = Some (with_hash k (Files s))) as Hsome;
      [| congruence].
    apply group_by_hash_lookup. repeat split; [done |].
    intros Hnil. rewrite Hnil in Hlen. simpl in Hlen. lia.
Qed.

Lemma same_path_same_record (files : list FileInfo) (f g : FileInfo) :
  NoDup (Path <$> files) -> f ∈ files -> g ∈ files -> Path f = Path g -> f = g.
Proof.
  intros Hnd [i Hi]%list_elem_of_lookup [j Hj]%list_elem_of_lookup Hp.
  assert (i = j) as ->; [| congruence].
  eapply NoDup_lookup; [exact Hnd | |].
  - by rewrite list_lookup_fmap, Hi.
  - by rewrite list_lookup_fmap, Hj, Hp.
Qed.

(** The flags that [findDuplicates] leaves, when no two records share a
    path. *)
Lemma findDuplicates_Files (s : Scanner) :
  NoDup (Path <$> Files s) ->
  Files (findDuplicates s) = flag_shared (Files s).
Proof.
  intros Hnd. unfold findDuplicates, flag_shared.
  rewrite mark_groups_Files by done.
  apply list_fmap_ext. intros i f Hi.
  assert (Hf : f ∈ Files s) by (apply list_elem_of_lookup; eauto).
  unfold mark_if. case_decide as Hq.
  - apply marked_paths_spec in Hq as (h & g & Hin & Hlen & Hq).
    apply elem_of_map_to_list, group_by_hash_lookup in Hin as (Hne & -> & _).
    apply list_elem_of_fmap in Hq as (f' & Hp & Hf').
    unfold with_hash in Hf'. apply list_elem_of_filter in Hf' as [Hh Hf'].
    assert (f = f') as <- by (by apply (same_path_same_record (Files s))).
    assert (is_shared (Files s) (Hash f) = true) as ->; [| done].
    apply is_shared_spec. subst h. split; [done | lia].
  - destruct (is_shared (Files s) (Hash f)) eqn:Hs; [| done].
    exfalso. apply Hq. apply is_shared_spec in Hs as [Hne Hlen].
    apply marked_paths_spec. exists (Hash f), (with_hash (Hash f) (Files s)).
    repeat split; [| lia |].
    + apply elem_of_map_to_list, group_by_hash_lookup. repeat split; [done |].
      intros Hnil. rewrite Hnil in Hlen. simpl in Hlen. lia.
    + apply list_elem_of_fmap. exists f. split; [done |].
      unfold with_hash. by apply list_elem_of_filter.
Qed.

(** ** What a scan leaves *)

Lemma clear_unflagged (l : list FileInfo) :
  Forall (fun f => IsDuplicate f = false) l -> clear_duplicate <$> l = l.
Proof.
  intros H. rewrite <- (list_fmap_id l) at 2. apply list_fmap_ext.
  intros i [] Hi. eapply Forall_lookup_1 in H; [| exact Hi]. simpl in H.
  unfold clear_duplicate. simpl. by subst.
Qed.

Lemma ScanDirectory_inv md5hex root tree S :
  ScanDirectory md5hex root tree NewScanner = Some S ->
  exists s, Walk md5hex root tree NewScanner = (s, true) /\ walked s /\
            S = findDuplicates s /\
            Categories S = Categories s /\
            clear_duplicate <$> Files S = Files s.
Proof.
  unfold ScanDirectory. intros H.
  pose proof (Walk_walked md5hex tree root) as Hw.
  destruct (Walk md5hex root tree NewScanner) as [s []]; [| done].
  injection H as <-. exists s. simpl in Hw.
  split; [done |]. split; [done |]. split; [done |]. split.
  - apply mark_groups_Categories.
  - unfold findDuplicates. rewrite mark_groups_clear. apply clear_unflagged.
    destruct Hw as (_ & HF & _). eapply Forall_impl; [exact HF |]. by intros ? [].
Qed.

(** C10: the copies of the records in [Categories] and in [Duplicates]
    never carry the flag.  The walk puts the copies into [Categories]
    before [findDuplicates] runs and [findDuplicates] leaves that map as
    it is; the groups of [Duplicates] are made of the records as they
    were before marking; the records of [Files] differ from those of the
    walk in the flag alone. *)
Theorem scan_copies_never_flagged md5hex root tree S :
  ScanDirectory md5hex root tree NewScanner = Some S ->
  (forall category files f,
     Categories S !! category = Some files -> f ∈ files -> IsDuplicate f = false) /\
  (forall hash files f,
     Duplicates S !! hash = Some files -> f ∈ files -> IsDuplicate f = false) /\
  exists s,
    Walk md5hex root tree NewScanner = (s, true) /\
    S = findDuplicates s /\
    Categories S = Categories s /\
    clear_duplicate <$> Files S = Files s /\
    (forall hash files,
       Duplicates S !! hash = Some files -> files = with_hash hash (Files s)).
Proof.
  intros (s & HW & (HD & HF & HC) & -> & Hcat & Hclear)%ScanDirectory_inv.
  split; [| split].
  - intros category files f Hfiles Hf. rewrite Hcat in Hfiles.
    apply (HC category) in Hfiles. simpl in Hfiles.
    rewrite Forall_forall in Hfiles. by apply Hfiles.
  - intros hash files f Hfiles Hf.
    apply findDuplicates_Duplicates in Hfiles as [_ ->]; [| done].
    unfold with_hash in Hf. apply list_elem_of_filter in Hf as [_ Hf].
    rewrite Forall_forall in HF. by apply HF.
  - exists s. repeat split; try done.
    intros hash files Hfiles.
    by apply findDuplicates_Duplicates in Hfiles as [_ ->].
Qed.

Lemma scan_copies_never_flagged_witness :
  exists S, ScanDirectory digest ["Downloads"] twins_tree NewScanner = Some S /\
    (forall category files f,
       Categories S !! category = Some files -> f ∈ files -> IsDuplicate f = false) /\
    (forall hash files f,
       Duplicates S !! hash = Some files -> f ∈ files -> IsDuplicate f = false).
Proof.
  eexists. split; [reflexivity |].
  pose proof (scan_copies_never_flagged digest ["Downloads"] twins_tree _ eq_refl)
    as (H1 & H2 & _).
  split; [exact H1 | exact H2].
Defined.

(** C5, as the code has it: the flag of a scanned record is [IsZip], true
    exactly for the lower-cased extension ".zip"; the six archive
    extensions decide the category "Archives", not the flag. *)
Theorem scanned_IsZip_only_for_zip md5hex root tree S f :
  ScanDirectory md5hex root tree NewScanner = Some S ->
  f ∈ Files S ->
  Extension f = scan_ext (Name f) /\
  (IsZip f = true <-> Extension f = ".zip") /\
  (Category f = "Archives" <-> Extension f ∈ archive_exts).
Proof.
  intros (s & HW & (HD & HF & HC) & -> & Hcat & Hclear)%ScanDirectory_inv Hf.
  apply (list_elem_of_fmap_2 clear_duplicate) in Hf. rewrite Hclear in Hf.
  rewrite Forall_forall in HF. apply HF in Hf as (_ & Hext & Hcategory & Hzip).
  simpl in *. split; [done |]. split.
  - rewrite Hzip. apply String.eqb_eq.
  - rewrite Hcategory, <- one_of_spec. split.
    + apply category_archive_ext.
    + apply archive_ext_category.
Qed.

Lemma scanned_IsZip_only_for_zip_witness :
  Extension rar_record = scan_ext (Name rar_record) /\
  (IsZip rar_record = true <-> Extension rar_record = ".zip") /\
  (Category rar_record = "Archives" <-> Extension rar_record ∈ archive_exts).
Proof.
  apply (scanned_IsZip_only_for_zip digest ["Downloads"] rar_tree
           (findDuplicates (Walk digest ["Downloads"] rar_tree NewScanner).1)).
  - reflexivity.
  - vm_compute. apply list_elem_of_here.
Defined.

(** C5 as stated fails on a scanned [.rar] file: its extension is one of
    the supported archive types and its flag is false. *)
Lemma rar_is_archive_without_flag :
  Files <$> ScanDirectory digest ["Downloads"] rar_tree NewScanner
  = Some [rar_record] /\
  Extension rar_record ∈ archive_exts /\
  IsZip rar_record = false /\
  ~ (IsZip rar_record = true <-> Extension rar_record ∈ archive_exts).
Proof.
  assert (Hin : Extension rar_record ∈ archive_exts).
  { apply one_of_spec. reflexivity. }
  split; [vm_compute; reflexivity |].
  split; [exact Hin |]. split; [reflexivity |].
  intros [_ H]. specialize (H Hin). discriminate.
Qed.

Lemma with_hash_fmap (g : FileInfo -> FileInfo) (h : string) (l : list FileInfo) :
  (forall f, Hash (g f) = Hash f) ->
  with_hash h (g <$> l) = g <$> with_hash h l.
Proof.
  intros Hg. unfold with_hash. induction l as [| f l IH]; [done |].
  rewrite fmap_cons. destruct (decide (Hash f = h)) as [Hf | Hf].
  - rewrite !filter_cons_True by (by rewrite ?Hg). by rewrite fmap_cons, IH.
  - rewrite !filter_cons_False by (by rewrite ?Hg). done.
Qed.

Lemma two_in_filter {A} (P : A -> Prop) `{!forall x, Decision (P x)} (l : list A) :
  (2 <= length (filter P l))%nat ->
  exists i j x y, i <> j /\ l !! i = Some x /\ l !! j = Some y /\ P x /\ P y.
Proof.
  induction l as [| a l IH]; [simpl; lia |].
  destruct (decide (P a)) as [Ha | Ha].
  - rewrite filter_cons_True by done. simpl. intros Hlen.
    destruct (filter P l) as [| y rest] eqn:Hf; [simpl in Hlen; lia |].
    assert (Hy : y ∈ filter P l) by (rewrite Hf; apply list_elem_of_here).
    apply list_elem_of_filter in Hy as [Py [j Hj]%list_elem_of_lookup].
    exists 0%nat, (S j), a, y. by repeat split.
  - rewrite filter_cons_False by done. intros Hlen.
    destruct (IH Hlen) as (i & j & x & y & Hij & Hi & Hj & Px & Py).
    exists (S i), (S j), x, y. repeat split; try done. lia.
Qed.

Lemma flag_shared_lookup (F : list FileInfo) (i : nat) (x : FileInfo) :
  F !! i = Some x ->
  exists x', flag_shared F !! i = Some x' /\ Hash x' = Hash x /\ Path x' = Path x.
Proof.
  intros Hi. unfold flag_shared. rewrite list_lookup_fmap, Hi. simpl.
  eexists. split; [done |]. by destruct (is_shared F (Hash x)).
Qed.

(** C8: a scan in which N >= 2 files carry the digest [h] of one content
    and no other non-empty digest occurs twice leaves exactly one group,
    made of those N records, and the flag on exactly those N records of
    [Files]; a record without hash is neither flagged nor in a group.
    (Contents are told apart by their digests; the records of one scan
    have distinct paths.) *)
Theorem identical_files_form_one_group md5hex root tree S h :
  ScanDirectory md5hex root tree NewScanner = Some S ->
  NoDup (Path <$> Files S) ->
  h <> "" ->
  (2 <= length (with_hash h (Files S)))%nat ->
  (forall i j f g,
     i <> j -> Files S !! i = Some f -> Files S !! j = Some g ->
     Hash f = Hash g -> Hash f = h \/ Hash f = "") ->
  (exists group,
     Duplicates S = {[h := group]} /\
     group = clear_duplicate <$> with_hash h (Files S) /\
     length group = length (with_hash h (Files S))) /\
  (forall f, f ∈ Files S -> (IsDuplicate f = true <-> Hash f = h)) /\
  (forall f, f ∈ Files S -> Hash f = "" -> IsDuplicate f = false) /\
  (forall k group g, Duplicates S !! k = Some group -> g ∈ group -> Hash g <> "").
Proof.
  intros (s & HW & (HD & HF & HC) & HS & Hcat & Hclear)%ScanDirectory_inv
         Hnd Hh HN Hpair.
  set (F := Files s) in *.
  assert (HndF : NoDup (Path <$> F)).
  { rewrite <- Hclear, <- list_fmap_compose.
    erewrite list_fmap_ext; [exact Hnd |]. by intros ? []. }
  assert (HFiles : Files S = flag_shared F).
  { rewrite HS. by apply findDuplicates_Files. }
  assert (HDup : forall k g, Duplicates S !! k = Some g <->
                             is_shared F k = true /\ g = with_hash k F).
  { intros k g. rewrite HS. by apply findDuplicates_Duplicates. }
  assert (Hwith : with_hash h (Files S)
                  = (fun f => if is_shared F (Hash f) then set_duplicate f else f)
                      <$> with_hash h F).
  { rewrite HFiles. unfold flag_shared. apply with_hash_fmap.
    intros f. by destruct (is_shared F (Hash f)). }
  assert (Hunflagged : Forall (fun f => IsDuplicate f = false) F).
  { eapply Forall_impl; [exact HF |]. by intros ? []. }
  assert (K : forall k, is_shared F k = true <-> k = h).
  { intros k. split.
    - intros [Hk Hlen]%is_shared_spec.
      apply two_in_filter in Hlen as (i & j & x & y & Hij & Hi & Hj & Hx & Hy).
      apply flag_shared_lookup in Hi as (x' & Hi & Hx' & _).
      apply flag_shared_lookup in Hj as (y' & Hj & Hy' & _).
      rewrite <- HFiles in Hi, Hj.
      destruct (Hpair i j x' y' Hij Hi Hj) as [H | H]; congruence.
    - intros ->. apply is_shared_spec. split; [done |].
      rewrite Hwith, length_fmap in HN. done. }
  split; [| split; [| split]].
  - exists (with_hash h F). split; [| split].
    + apply map_eq. intros k. destruct (decide (k = h)) as [-> | Hk].
      * rewrite lookup_singleton_eq. apply HDup. split; [by apply K | done].
      * rewrite lookup_singleton_ne by done.
        destruct (Duplicates S !! k) as [g |] eqn:E; [| done].
        apply HDup in E as [E _]. by apply K in E.
    + rewrite Hwith, <- list_fmap_compose.
      rewrite <- (clear_unflagged (with_hash h F)) at 1.
      * apply list_fmap_ext. intros i f _. simpl.
        by destruct (is_shared F (Hash f)).
      * unfold with_hash. apply Forall_forall.
        intros x [_ Hx]%list_elem_of_filter.
        rewrite Forall_forall in Hunflagged. by apply Hunflagged.
    + by rewrite Hwith, length_fmap.
  - intros f Hf. rewrite HFiles in Hf. unfold flag_shared in Hf.
    apply list_elem_of_fmap in Hf as (f0 & -> & Hf0).
    rewrite Forall_forall in Hunflagged. specialize (Hunflagged f0 Hf0).
    destruct (is_shared F (Hash f0)) eqn:Hs; simpl.
    + apply K in Hs. done.
    + split; [congruence |]. intros Hh0. apply K in Hh0. congruence.
  - intros f Hf Hempty. rewrite HFiles in Hf. unfold flag_shared in Hf.
    apply list_elem_of_fmap in Hf as (f0 & -> & Hf0).
    rewrite Forall_forall in Hunflagged. specialize (Hunflagged f0 Hf0).
    destruct (is_shared F (Hash f0)) eqn:Hs; [| done].
    apply is_shared_spec in Hs as [Hs _]. simpl in Hempty. done.
  - intros k group g [Hs ->]%HDup Hg.
    unfold with_hash in Hg. apply list_elem_of_filter in Hg as [-> _].
    by apply is_shared_spec in Hs as [Hs _].
Qed.

Lemma identical_files_form_one_group_witness :
  (exists group,
     Duplicates twins_scan = {["md5:JFIF sea" := group]} /\
     group = clear_duplicate <$> with_hash "md5:JFIF sea" (Files twins_scan) /\
     length group = length (with_hash "md5:JFIF sea" (Files twins_scan))) /\
  (forall f, f ∈ Files twins_scan ->
     (IsDuplicate f = true <-> Hash f = "md5:JFIF sea")) /\
  (forall f, f ∈ Files twins_scan -> Hash f = "" -> IsDuplicate f = false) /\
  (forall k group g,
     Duplicates twins_scan !! k = Some group -> g ∈ group -> Hash g <> "").
Proof.
  apply (identical_files_form_one_group digest ["Downloads"] twins_tree).
  - reflexivity.
  - apply (bool_decide_unpack _). vm_compute. exact I.
  - discriminate.
  - vm_compute. lia.
  - remember (Files twins_scan) as F eqn:HF. vm_compute in HF. subst F.
    intros i j f g Hij Hi Hj Hh.
    destruct i as [| [| [| [| i]]]]; simpl in Hi; try discriminate Hi;
      injection Hi as <-;
      (destruct j as [| [| [| [| j]]]]; simpl in Hj; try discriminate Hj;
       injection Hj as <-);
      try (exfalso; apply Hij; reflexivity);
      simpl in Hh; first [discriminate Hh | left; reflexivity | right; reflexivity].
Defined.


(** ** The move primitive *)

Lemma os_Remove_file (E : OS) (fs : fsys) (p : path) (c : list Byte.byte) :
  fs !! p = Some (NFile c) ->
  os_Remove E fs p = if remove_fails E p then (fs, false) else (delete p fs, true).
Proof. intros H. unfold os_Remove. by rewrite H. Qed.

Lemma os_Stat_file (fs : fsys) (p : path) (c : list Byte.byte) :
  fs !! p = Some (NFile c) ->
  os_Stat fs p = match p with [] => Some NDir | _ => Some (NFile c) end.
Proof. intros H. unfold os_Stat. by destruct p. Qed.

Lemma file_can_be_at_nonempty (fs : fsys) (p : path) :
  file_can_be_at fs p = true -> p <> [].
Proof. unfold file_can_be_at, dir_at. intros H ->. simpl in H. discriminate. Qed.

Lemma copyAndDelete_spec (E : OS) (fs : fsys) (src dst : path)
    (c : list Byte.byte) :
  src <> dst ->
  fs !! src = Some (NFile c) ->
  forall fs' ok, copyAndDelete E fs src dst = (fs', ok) ->
    if ok then fs' !! src = None /\ fs' !! dst = Some (NFile c) /\
               copy_fails E src = None
    else fs' !! src = Some (NFile c).
Proof.
  intros Hne Hsrc fs' ok. unfold copyAndDelete.
  destruct (open_fails E src); [by intros [= <- <-] |].
  rewrite (os_Stat_file fs src c Hsrc).
  assert (Hfs1 : <[dst := NFile []]> fs !! src = Some (NFile c))
    by (by rewrite lookup_insert_ne).
  rewrite (os_Stat_file _ src c Hfs1).
  destruct src as [| s0 src'].
  { destruct (create_fails E dst || negb (file_can_be_at fs dst));
      by intros [= <- <-]. }
  set (src := s0 :: src') in *.
  destruct (create_fails E dst || negb (file_can_be_at fs dst));
    [by intros [= <- <-] |].
  destruct (copy_fails E src) as [k |];
    [intros [= <- <-]; by rewrite !lookup_insert_ne |].
  destruct (sync_fails E dst);
    [intros [= <- <-]; by rewrite !lookup_insert_ne |].
  rewrite (os_Remove_file _ _ _ c) by (by rewrite !lookup_insert_ne).
  destruct (remove_fails E src); intros [= <- <-].
  - by rewrite !lookup_insert_ne.
  - by rewrite lookup_delete_eq, lookup_delete_ne, lookup_insert_eq.
Qed.

Lemma os_Rename_spec (E : OS) (fs : fsys) (src dst : path) (c : list Byte.byte) :
  src <> dst ->
  fs !! src = Some (NFile c) ->
  forall fs' ok, os_Rename E fs src dst = (fs', ok) ->
    if ok then fs' !! src = None /\ fs' !! dst = Some (NFile c)
    else fs' = fs.
Proof.
  intros Hne Hsrc fs' ok. unfold os_Rename.
  destruct (rename_fails E src dst); [by intros [= <- <-] |].
  case_bool_decide; [by intros [= <- <-] |].
  rewrite Hsrc.
  destruct (file_can_be_at fs dst); intros [= <- <-]; [| done].
  by rewrite lookup_insert_ne, lookup_delete_eq, lookup_insert_eq.
Qed.

(** C6, as the code has it: for a source file and a destination at another
    path.  After a move that reports success the source path is gone and
    the destination holds the bytes of the source; when [io.Copy] breaks,
    [copyAndDelete] reports failure and the source file is still in place
    with its bytes; so it is after any move that reports failure. *)
Theorem move_between_distinct_paths (E : OS) (fs : fsys) (src dst : path)
    (c : list Byte.byte) :
  src <> dst ->
  fs !! src = Some (NFile c) ->
  (forall fs', atomicMove E fs src dst = (fs', true) ->
               fs' !! src = None /\ fs' !! dst = Some (NFile c)) /\
  (forall fs', copyAndDelete E fs src dst = (fs', true) ->
               fs' !! src = None /\ fs' !! dst = Some (NFile c)) /\
  (forall n fs' ok, copy_fails E src = Some n ->
                    copyAndDelete E fs src dst = (fs', ok) ->
                    ok = false /\ fs' !! src = Some (NFile c)) /\
  (forall fs', atomicMove E fs src dst = (fs', false) ->
               fs' !! src = Some (NFile c)).
Proof.
  intros Hne Hsrc.
  pose proof (copyAndDelete_spec E fs src dst c Hne Hsrc) as Hcopy.
  pose proof (os_Rename_spec E fs src dst c Hne Hsrc) as Hrename.
  split; [| split; [| split]].
  - intros fs' H. unfold atomicMove in H.
    destruct (os_Rename E fs src dst) as [fs1 []] eqn:Hr.
    + injection H as <-. by apply (Hrename fs1 true).
    + by apply (Hcopy fs' true) in H as (? & ? & _).
  - intros fs' H. by apply (Hcopy fs' true) in H as (? & ? & _).
  - intros n fs' ok Hn H. apply Hcopy in H. destruct ok; [| done].
    destruct H as (_ & _ & H). congruence.
  - intros fs' H. unfold atomicMove in H.
    destruct (os_Rename E fs src dst) as [fs1 []] eqn:Hr; [done |].
    by apply (Hcopy fs' false) in H.
Qed.

Lemma move_between_distinct_paths_witness :
  let fs := disk_of ["Downloads"] archive_and_folder_tree in
  let src := ["Downloads"; "photos.zip"] in
  let dst := ["Downloads"; "Images"; "photos.zip"] in
  let c := bytes "PK photos, first download" in
  (forall fs', atomicMove quiet fs src dst = (fs', true) ->
               fs' !! src = None /\ fs' !! dst = Some (NFile c)) /\
  (forall fs', copyAndDelete quiet fs src dst = (fs', true) ->
               fs' !! src = None /\ fs' !! dst = Some (NFile c)) /\
  (forall n fs' ok, copy_fails quiet src = Some n ->
                    copyAndDelete quiet fs src dst = (fs', ok) ->
                    ok = false /\ fs' !! src = Some (NFile c)) /\
  (forall fs', atomicMove quiet fs src dst = (fs', false) ->
               fs' !! src = Some (NFile c)).
Proof.
  apply (move_between_distinct_paths quiet
           (disk_of ["Downloads"] archive_and_folder_tree)
           ["Downloads"; "photos.zip"] ["Downloads"; "Images"; "photos.zip"]).
  - discriminate.
  - vm_compute. reflexivity.
Defined.

Example move_to_folder :
  let fs := disk_of ["Downloads"] archive_and_folder_tree in
  let src := ["Downloads"; "photos.zip"] in
  let dst := ["Downloads"; "Images"; "photos.zip"] in
  (atomicMove quiet fs src dst).2 = true /\
  (atomicMove (other_volume None) fs src dst).2 = true /\
  (atomicMove (other_volume None) fs src dst).1 !! dst
  = Some (NFile (bytes "PK photos, first download")) /\
  (atomicMove (other_volume (Some 5%nat)) fs src dst).2 = false /\
  (atomicMove (other_volume (Some 5%nat)) fs src dst).1 !! src = fs !! src /\
  (atomicMove (other_volume (Some 5%nat)) fs src dst).1 !! dst
  = Some (NFile (bytes "PK ph")).
Proof. vm_compute. repeat split; reflexivity. Qed.

(** C6 as stated fails when source and destination are one path, as they
    are when an archive already lies in the folder it is sent to: the
    rename reports success and the source is still there; and when the
    copy takes over, the move reports success and the file is gone, so no
    destination holds its bytes. *)
Lemma move_onto_itself_counterexample :
  let fs := disk_of ["Downloads"] one_archive_tree in
  let p := ["Downloads"; "photos.zip"] in
  fs !! p = Some (NFile (bytes "PK photos, first download")) /\
  (atomicMove quiet fs p p).2 = true /\
  (atomicMove quiet fs p p).1 !! p
  = Some (NFile (bytes "PK photos, first download")) /\
  (atomicMove (other_volume None) fs p p).2 = true /\
  (atomicMove (other_volume None) fs p p).1 !! p = None.
Proof. vm_compute. repeat split; reflexivity. Qed.

(** ** Pattern-aware resolution ([RemoveDuplicatesByPattern]) *)

Lemma split_by_pattern_snoc (files : list FileInfo) (x : FileInfo) :
  split_by_pattern (files ++ [x])
  = (if isOriginalFile (Name x)
     then (Some (PElem (length files)), (split_by_pattern files).2)
     else ((split_by_pattern files).1, ((split_by_pattern files).2 ++ [x])%list)).
Proof.
  unfold split_by_pattern. rewrite imap_app, fold_left_app. simpl.
  rewrite Nat.add_0_r.
  destruct (fold_left _ (imap _ files) (None, [])) as [o c]. simpl.
  by destruct (isOriginalFile (Name x)).
Qed.

Lemma looks_original_true (x : FileInfo) :
  isOriginalFile (Name x) = true -> looks_original x.
Proof. unfold looks_original. by intros ->. Qed.

Lemma looks_original_false (x : FileInfo) :
  isOriginalFile (Name x) = false -> ¬ looks_original x.
Proof. unfold looks_original. intros -> H. exact H. Qed.

(** After the first loop [copyFiles] holds the members that look like
    copies, and [originalFile] points to the last member that looks
    original, if there is one. *)
Lemma split_by_pattern_spec (files : list FileInfo) :
  (split_by_pattern files).2 = filter (fun f => ¬ looks_original f) files /\
  match (split_by_pattern files).1 with
  | None => filter looks_original files = []
  | Some (PElem i) =>
      exists k, files !! i = Some k /\ last (filter looks_original files) = Some k
  | Some (PLoopVar _) => False
  end.
Proof.
  induction files as [| x files [IHc IHo]] using rev_ind; [done |].
  rewrite split_by_pattern_snoc, !filter_app.
  destruct (isOriginalFile (Name x)) eqn:Hx; simpl.
  - pose proof (looks_original_true x Hx) as Hyes.
    rewrite (filter_cons_False (fun f => ¬ looks_original f)) by tauto.
    rewrite filter_nil, app_nil_r.
    split; [done |]. exists x. split.
    + by rewrite lookup_app_r, Nat.sub_diag.
    + rewrite (filter_cons_True looks_original) by done.
      by rewrite filter_nil, last_snoc.
  - pose proof (looks_original_false x Hx) as Hno.
    rewrite (filter_cons_True (fun f => ¬ looks_original f)) by done.
    rewrite filter_nil.
    split; [by rewrite IHc |].
    rewrite (filter_cons_False looks_original) by done.
    rewrite filter_nil, app_nil_r.
    destruct (split_by_pattern files).1 as [[i | i] |]; [| done | done].
    destruct IHo as (k & Hk & Hlast). exists k. split; [| done].
    by apply lookup_app_l_Some.
Qed.

Lemma pattern_decision_original (perIteration : bool) (files : list FileInfo)
    (keeper : FileInfo) :
  last (filter looks_original files) = Some keeper ->
  pattern_decision perIteration files
  = (Some keeper, filter (fun f => ¬ looks_original f) files).
Proof.
  intros Hlast. unfold pattern_decision.
  destruct (split_by_pattern_spec files) as [Hc Ho].
  destruct (split_by_pattern files) as [[[i | i] |] c]; simpl in *.
  - destruct Ho as (k & Hk & Hk'). subst c. rewrite Hk. congruence.
  - done.
  - rewrite Ho in Hlast. done.
Qed.

(** The lines of a dry run over the files handed to the removal. *)
Lemma dry_remove_all (E : OS) (copyFiles : list FileInfo) (r : run) :
  disk (fold_left (fun r file => remove_one E true file r) copyFiles r) = disk r /\
  console (fold_left (fun r file => remove_one E true file r) copyFiles r)
  = (console r ++ ((fun f => WouldRemove (Name f)) <$> copyFiles))%list.
Proof.
  revert r. induction copyFiles as [| f rest IH]; intros r; cbn [fold_left].
  - split; [done | by rewrite app_nil_r].
  - destruct (IH (remove_one E true f r)) as [-> ->].
    split; [done |]. simpl. by rewrite <- app_assoc.
Qed.

(** C2, as the code has it, for a group with a member that looks
    original: the keeper is the last such member in the order of the
    group, the members handed to the removal are exactly those that look
    like copies, and a dry run reports just that; other members that look
    original are neither the keeper nor removed.  With exactly one member
    that looks original, that member is the keeper and every other member
    is removed. *)
Theorem pattern_keeps_last_original (E : OS) (perIteration : bool)
    (dh : DuplicateHandler) (hash : string) (files : list FileInfo)
    (keeper : FileInfo) (fs : fsys) :
  Duplicates (dh_Scanner dh) !! hash = Some files ->
  (2 <= length files)%nat ->
  last (filter looks_original files) = Some keeper ->
  pattern_decision perIteration files
  = (Some keeper, filter (fun f => ¬ looks_original f) files) /\
  (dh_DryRun dh = true ->
   let r := RemoveDuplicatesByPattern E perIteration dh [hash] fs in
   disk r = fs /\
   console r = Keeping (Name keeper)
               :: ((fun f => WouldRemove (Name f))
                     <$> filter (fun f => ¬ looks_original f) files)) /\
  (filter looks_original files = [keeper] ->
   files ≡ₚ keeper :: filter (fun f => ¬ looks_original f) files).
Proof.
  intros Hgroup Hlen Hlast.
  pose proof (pattern_decision_original perIteration files keeper Hlast) as Hdec.
  split; [done |]. split.
  - intros Hdry. unfold RemoveDuplicatesByPattern. cbn [fold_left].
    rewrite Hgroup. destruct files as [| f1 [| f2 rest]]; [simpl in Hlen; lia .. |].
    rewrite Hdec, Hdry.
    by destruct (dry_remove_all E
                   (filter (fun f => ¬ looks_original f) (f1 :: f2 :: rest))
                   (say (Keeping (Name keeper)) (start fs))) as [-> ->].
  - intros Hone. rewrite <- (filter_app_complement looks_original files) at 1.
    by rewrite Hone.
Qed.

Lemma pattern_keeps_last_original_witness :
  let files := [holiday_copy; holiday] in
  let dh := NewDuplicateHandler twins_scan true in
  pattern_decision false files
  = (Some holiday, filter (fun f => ¬ looks_original f) files) /\
  (dh_DryRun dh = true ->
   let r := RemoveDuplicatesByPattern quiet false dh ["md5:JFIF sea"]
              (disk_of ["Downloads"] twins_tree) in
   disk r = disk_of ["Downloads"] twins_tree /\
   console r = Keeping (Name holiday)
               :: ((fun f => WouldRemove (Name f))
                     <$> filter (fun f => ¬ looks_original f) files)) /\
  (filter looks_original files = [holiday] ->
   files ≡ₚ holiday :: filter (fun f => ¬ looks_original f) files).
Proof.
  apply (pattern_keeps_last_original quiet false
           (NewDuplicateHandler twins_scan true) "md5:JFIF sea"
           [holiday_copy; holiday] holiday (disk_of ["Downloads"] twins_tree)).
  - vm_compute. reflexivity.
  - simpl. lia.
  - vm_compute. reflexivity.
Defined.

(** C2 as stated fails on a group in which two members look original:
    the specification keeps the newer one, [report.pdf], and disposes of
    the other; the code keeps the last one in the order of the group,
    [report-final.pdf], and removes nothing. *)
Lemma two_originals_counterexample :
  filter looks_original two_originals = two_originals /\
  spec_pattern_keeper two_originals = Some report /\
  spec_pattern_disposed two_originals = [report_final] /\
  pattern_decision true two_originals = (Some report_final, []) /\
  pattern_decision false two_originals = (Some report_final, []) /\
  (forall perIteration,
     pattern_decision perIteration two_originals
     <> (spec_pattern_keeper two_originals, spec_pattern_disposed two_originals)).
Proof.
  repeat split; try (vm_compute; reflexivity).
  intros []; vm_compute; discriminate.
Qed.

(** X19: when no member looks original, the first loop has put every
    member into [copyFiles] before the fallback chooses a keeper, so the
    removal is handed the whole group, the file announced as kept
    included. *)
Lemma pattern_fallback_removes_whole_group (perIteration : bool)
    (files : list FileInfo) :
  filter looks_original files = [] ->
  exists more, (pattern_decision perIteration files).2 = (files ++ more)%list.
Proof.
  intros Hnone. unfold pattern_decision.
  destruct (split_by_pattern_spec files) as [Hc Ho].
  assert (Hall : filter (fun f => ¬ looks_original f) files = files).
  { clear Hc Ho. induction files as [| f files IH]; [done |].
    destruct (decide (looks_original f)) as [Hf | Hf].
    - rewrite filter_cons_True in Hnone by done. discriminate.
    - rewrite filter_cons_False in Hnone by done.
      rewrite filter_cons_True by done. by rewrite IH. }
  destruct (split_by_pattern files) as [[[i | i] |] c]; simpl in *.
  - destruct Ho as (k & _ & Hk). rewrite Hnone in Hk. discriminate.
  - done.
  - subst c. rewrite Hall.
    destruct (deref perIteration files (length files - 1)
                (newest_ptr perIteration files)); simpl; eauto.
    exists []. by rewrite app_nil_r.
Qed.

Lemma pattern_fallback_removes_whole_group_witness :
  exists more, (pattern_decision true all_copies).2 = (all_copies ++ more)%list.
Proof.
  apply (pattern_fallback_removes_whole_group true all_copies).
  vm_compute. reflexivity.
Defined.

Example all_copies_are_removed :
  (pattern_decision true all_copies).1 = all_copies !! 1%nat /\
  (pattern_decision false all_copies).1 = all_copies !! 2%nat /\
  Name <$> (pattern_decision true all_copies).2
  = ["notes (1).txt"; "notes (2).txt"; "notes copy.txt";
     "notes (1).txt"; "notes copy.txt"] /\
  Name <$> (pattern_decision false all_copies).2
  = ["notes (1).txt"; "notes (2).txt"; "notes copy.txt";
     "notes (1).txt"; "notes (2).txt"].
Proof. repeat split; vm_compute; reflexivity. Qed.

(** ** The organizer on scanned folders *)

(** C1 fails on the code.  The scan flags both downloads of the picture
    and both downloads of the archive in [Files]; [OrganizeFiles] and
    [ProcessZipFiles] read the copies in [Categories], which never carry
    the flag, and move all four files.  [OrganizeByDate] and
    [OrganizeBySize] read [Files] and leave them where they are. *)
Theorem organizer_relocates_flagged_duplicates :
  let S := scan_of ["Downloads"] duplicates_tree in
  let fs := disk_of ["Downloads"] duplicates_tree in
  let fo := NewFileOrganizer S false ["Downloads"] in
  let by_category :=
    OrganizeFiles quiet fo ["Archives"; "Documents"; "Images"] fs in
  let archives := ProcessZipFiles quiet fo fs in
  (fun f => (Name f, IsDuplicate f)) <$> Files S
  = [("holiday (1).jpg", true); ("holiday.jpg", true); ("letter.txt", false);
     ("photos (1).zip", true); ("photos.zip", true)] /\
  fs !! ["Downloads"; "holiday.jpg"] = Some (NFile (bytes "JFIF sea")) /\
  disk by_category !! ["Downloads"; "holiday.jpg"] = None /\
  disk by_category !! ["Downloads"; "Images"; "holiday.jpg"]
  = Some (NFile (bytes "JFIF sea")) /\
  disk by_category !! ["Downloads"; "holiday (1).jpg"] = None /\
  disk by_category !! ["Downloads"; "Images"; "holiday (1).jpg"]
  = Some (NFile (bytes "JFIF sea")) /\
  console by_category
  = [Processing "Archives" 2; Moving "photos (1).zip"; Moving "photos.zip";
     Processing "Documents" 1; Moving "letter.txt";
     Processing "Images" 2; Moving "holiday (1).jpg"; Moving "holiday.jpg"] /\
  disk archives !! ["Downloads"; "photos.zip"] = None /\
  disk archives !! ["Downloads"; "Images"; "photos.zip"]
  = Some (NFile (bytes "PK photos, first download")) /\
  disk archives !! ["Downloads"; "photos (1).zip"] = None /\
  disk archives !! ["Downloads"; "Images"; "photos (1).zip"]
  = Some (NFile (bytes "PK photos, first download")) /\
  disk (OrganizeByDate quiet fo ["2025-08"] fs) !! ["Downloads"; "holiday.jpg"]
  = Some (NFile (bytes "JFIF sea")) /\
  disk (OrganizeBySize quiet fo fs) !! ["Downloads"; "holiday.jpg"]
  = Some (NFile (bytes "JFIF sea")).
Proof. vm_compute. repeat split; reflexivity. Qed.

(** C3 fails on the code.  [ProcessZipFiles] sends [photos.zip] to
    "Images", where another [photos.zip] lies; there is no test of the
    destination and no warning, and the rename replaces the file that was
    there. *)
Theorem archive_move_overwrites_destination :
  let S := scan_of ["Downloads"] archive_conflict_tree in
  let fs := disk_of ["Downloads"] archive_conflict_tree in
  let fo := NewFileOrganizer S false ["Downloads"] in
  let r := ProcessZipFiles quiet fo fs in
  fs !! ["Downloads"; "Images"; "photos.zip"]
  = Some (NFile (bytes "PK photos, second download")) /\
  disk r !! ["Downloads"; "Images"; "photos.zip"]
  = Some (NFile (bytes "PK photos, first download")) /\
  disk r !! ["Downloads"; "photos.zip"] = None /\
  console r
  = [ProcessingZip "photos.zip"; ZipContains "Images"; Moving "photos.zip";
     ProcessingZip "photos.zip"; ZipContains "Images"; Moving "photos.zip"] /\
  done_count r = 2 /\ skipped_count r = 0.
Proof. vm_compute. repeat split; reflexivity. Qed.

(** The three [Organize...] strategies do test the destination: the same
    conflict in "Archives" is skipped with the warning and the file that
    was there stays. *)
Example organize_skips_existing_destination :
  let tree :=
    EDir "Downloads" true
      [EDir "Archives" true [a_file "photos.zip" 50 "PK photos, second download"];
       a_file "photos.zip" 30 "PK photos, first download"] in
  let fo := NewFileOrganizer (scan_of ["Downloads"] tree) false ["Downloads"] in
  let r := OrganizeFiles quiet fo ["Archives"] (disk_of ["Downloads"] tree) in
  disk r = disk_of ["Downloads"] tree /\
  console r = [Processing "Archives" 2;
               WarnExists ["Downloads"; "Archives"; "photos.zip"]] /\
  skipped_count r = 2.
Proof. vm_compute. repeat split; reflexivity. Qed.

(** C9 fails on the code.  In a dry run [OrganizeFiles] probes with
    [os.MkdirAll] and [os.RemoveAll] on [.test_permissions] below the base
    path; a directory of that name that was there before the run is
    removed with the file in it. *)
Theorem dry_run_removes_existing_probe_directory :
  let S := scan_of ["Downloads"] probe_tree in
  let fs := disk_of ["Downloads"] probe_tree in
  let fo := NewFileOrganizer S true ["Downloads"] in
  let r := OrganizeFiles quiet fo ["Images"] fs in
  fo_DryRun fo = true /\
  Name <$> Files S = ["holiday.jpg"] /\
  fs !! ["Downloads"; ".test_permissions"] = Some NDir /\
  fs !! ["Downloads"; ".test_permissions"; "notes.txt"]
  = Some (NFile (bytes "keep me")) /\
  disk r !! ["Downloads"; ".test_permissions"] = None /\
  disk r !! ["Downloads"; ".test_permissions"; "notes.txt"] = None /\
  console r = [Processing "Images" 1; WouldMove "holiday.jpg" "Images"].
Proof. vm_compute. repeat split; reflexivity. Qed.

(** C7 fails on the code.  The one entry of the archive declares 2^63
    bytes, so the total of the uncompressed sizes is far above ten times
    the ceiling; [int64(f.UncompressedSize64)] is -2^63, the running total
    is negative, and the screening passes. *)
Theorem screening_passes_wrapped_total :
  let fs := disk_of ["Downloads"] wrapped_tree in
  let p := ["Downloads"; "tiny.zip"] in
  OpenReader quiet fs p = Some [huge_entry] /\
  maxZipSize * 10 < UncompressedSize64 huge_entry /\
  to_int64 (UncompressedSize64 huge_entry) = - 2 ^ 63 /\
  screen 24 [huge_entry] = None /\
  checkZipBomb quiet fs p = None.
Proof. vm_compute. repeat split; reflexivity. Qed.

(** ** Dry runs *)

(** A fold whose steps keep the disk keeps the disk. *)
Lemma fold_keeps_disk {A} (step : run -> A -> run) (l : list A) (r : run) :
  (forall r x, disk (step r x) = disk r) ->
  disk (fold_left step l r) = disk r.
Proof.
  intros Hstep. revert r. induction l as [| x l IH]; intros r; simpl; [done |].
  by rewrite IH, Hstep.
Qed.

Lemma place_dry (E : OS) (folderPath : path) (folderName : string)
    (file : FileInfo) (r : run) :
  disk (place E true folderPath folderName file r) = disk r.
Proof.
  unfold place. case_bool_decide; [done |].
  by destruct (os_Stat (disk r) (Join folderPath (Name file))).
Qed.

Lemma remove_one_dry (E : OS) (file : FileInfo) (r : run) :
  disk (remove_one E true file r) = disk r.
Proof. done. Qed.

Lemma RemoveDuplicates_dry (E : OS) (dh : DuplicateHandler) (order : list string)
    (fs : fsys) :
  dh_DryRun dh = true -> disk (RemoveDuplicates E dh order fs) = fs.
Proof.
  intros Hdry. unfold RemoveDuplicates. rewrite fold_keeps_disk; [done |].
  intros r hash. destruct (Duplicates (dh_Scanner dh) !! hash) as [[| f1 [| f2 rest]] |];
    try done.
  rewrite fold_keeps_disk; [done |]. intros r' file.
  case_bool_decide; [done |]. by rewrite ?Hdry.
Qed.

Lemma RemoveDuplicatesByPattern_dry (E : OS) (perIteration : bool)
    (dh : DuplicateHandler) (order : list string) (fs : fsys) :
  dh_DryRun dh = true ->
  disk (RemoveDuplicatesByPattern E perIteration dh order fs) = fs.
Proof.
  intros Hdry. unfold RemoveDuplicatesByPattern. rewrite fold_keeps_disk; [done |].
  intros r hash. destruct (Duplicates (dh_Scanner dh) !! hash) as [[| f1 [| f2 rest]] |];
    try done.
  destruct (pattern_decision perIteration (f1 :: f2 :: rest)) as [[keeper |] copies];
    [| done].
  rewrite fold_keeps_disk; [done |]. intros r' file. by rewrite ?Hdry.
Qed.

Lemma MoveDuplicatesToFolder_dry (E : OS) (dh : DuplicateHandler)
    (destFolder : path) (order : list string) (fs : fsys) :
  dh_DryRun dh = true ->
  exists r, MoveDuplicatesToFolder E dh destFolder order fs = Some r /\ disk r = fs.
Proof.
  intros Hdry. unfold MoveDuplicatesToFolder. case_bool_decide; [by eexists |].
  rewrite Hdry. eexists. split; [done |].
  rewrite fold_keeps_disk; [done |].
  intros r hash. destruct (Duplicates (dh_Scanner dh) !! hash) as [[| f1 [| f2 rest]] |];
    try done.
  rewrite fold_keeps_disk; [done |]. intros r' file.
  case_bool_decide; [done |]. by rewrite ?Hdry.
Qed.

Lemma ask_keeps_disk (n : nat) (answers : list (option Z)) (r : run) :
  disk (ask n answers r).2 = disk r.
Proof.
  revert r. induction answers as [| [choice |] rest IH]; intros r; simpl; [done | |].
  - destruct (choice =? 0); [done |].
    destruct ((choice <? 1) || (Z.of_nat n <? choice)); [| done].
    by rewrite IH.
  - by rewrite IH.
Qed.

Lemma RemoveDuplicatesInteractive_dry (E : OS) (dh : DuplicateHandler)
    (order : list string) (answers : list (option Z)) (fs : fsys) :
  dh_DryRun dh = true ->
  disk (RemoveDuplicatesInteractive E dh order answers fs).1 = fs.
Proof.
  intros Hdry. unfold RemoveDuplicatesInteractive.
  generalize (omap (fun hash => Duplicates (dh_Scanner dh) !! hash) order).
  intros groups.
  assert (H : forall answers r,
            disk (interactive_groups E dh groups answers r).1 = disk r);
    [| by rewrite H].
  induction groups as [| files more IH]; intros ans r; simpl; [done |].
  destruct (length files <? 2)%nat; [by apply IH |].
  pose proof (ask_keeps_disk (length files) ans (list_files files r)) as Hask.
  destruct (ask (length files) ans (list_files files r)) as [[[choice ans'] |] r'];
    simpl in Hask.
  - assert (Hlist : disk (list_files files r) = disk r).
    { unfold list_files. apply fold_keeps_disk. by intros ? []. }
    destruct (choice =? 0); rewrite IH; [congruence |].
    rewrite fold_keeps_disk; [simpl; congruence |].
    intros r0 [i file]. destruct (i =? Z.to_nat (choice - 1))%nat; [done |].
    by rewrite ?Hdry.
  - simpl. rewrite Hask. unfold list_files. apply fold_keeps_disk. by intros ? [].
Qed.

Lemma OrganizeByDate_dry (E : OS) (fo : FileOrganizer) (order : list string)
    (fs : fsys) :
  fo_DryRun fo = true -> disk (OrganizeByDate E fo order fs) = fs.
Proof.
  intros Hdry. unfold OrganizeByDate. rewrite fold_keeps_disk; [done |].
  intros r dateKey.
  destruct (date_groups E (Files (fo_Scanner fo)) !! dateKey) as [files |]; [| done].
  unfold make_folder. rewrite Hdry.
  rewrite fold_keeps_disk; [done |]. intros. apply place_dry.
Qed.

Lemma OrganizeBySize_dry (E : OS) (fo : FileOrganizer) (fs : fsys) :
  fo_DryRun fo = true -> disk (OrganizeBySize E fo fs) = fs.
Proof.
  intros Hdry. unfold OrganizeBySize. rewrite fold_keeps_disk; [done |].
  intros r [[name min] max].
  destruct (filter _ (Files (fo_Scanner fo))) as [| f rest]; [done |].
  unfold make_folder. rewrite Hdry.
  rewrite fold_keeps_disk; [done |]. intros. apply place_dry.
Qed.

Lemma ProcessZipFiles_dry (E : OS) (fo : FileOrganizer) (fs : fsys) :
  fo_DryRun fo = true -> disk (ProcessZipFiles E fo fs) = fs.
Proof.
  intros Hdry. unfold ProcessZipFiles. rewrite fold_keeps_disk; [done |].
  intros r zipFile. destruct (IsDuplicate zipFile); [done |]. simpl.
  destruct (checkZipBomb E (disk r) (Path zipFile)); [done |].
  destruct (OpenReader E (disk r) (Path zipFile)); [| done].
  unfold make_folder. by rewrite ?Hdry.
Qed.

Lemma ancestors_and_self_snoc (p : path) (x : string) :
  ancestors_and_self (p ++ [x])%list
  = (ancestors_and_self p ++ [(p ++ [x])%list])%list.
Proof.
  unfold ancestors_and_self. rewrite length_app. simpl length.
  rewrite Nat.add_1_r, seq_S, map_app. simpl. f_equal.
  - apply map_ext_in. intros n [_ Hn]%in_seq. apply take_app_le. lia.
  - f_equal. apply take_ge. rewrite length_app. simpl. lia.
Qed.

Lemma mkdir_existing (fs : fsys) (dirs : list path) :
  (forall q, q ∈ dirs -> fs !! q = Some NDir) ->
  fold_left (fun fs q => <[q := NDir]> fs) dirs fs = fs.
Proof.
  induction dirs as [| q dirs IH]; intros H; simpl; [done |].
  rewrite insert_id by (apply H, list_elem_of_here).
  apply IH. intros q' Hq'. apply H. by apply list_elem_of_further.
Qed.

Lemma without_fresh_directory (fs : fsys) (p : path) :
  (forall q, p `prefix_of` q -> fs !! q = None) ->
  without p (<[p := NDir]> fs) = fs.
Proof.
  intros Hfree. unfold without. apply map_eq. intros q. apply option_eq. intros n.
  rewrite map_lookup_filter_Some. simpl. split.
  - intros [Hq Hnot]. rewrite lookup_insert_ne in Hq; [done |].
    intros ->. by apply Hnot.
  - intros Hq. assert (Hnot : ¬ p `prefix_of` q).
    { intros Hp. apply Hfree in Hp. congruence. }
    split; [| done]. rewrite lookup_insert_ne; [done |]. intros ->. by apply Hnot.
Qed.

(** The probe of a dry run leaves the disk as it found it when the base
    path is a directory and nothing lies at the path of the probe. *)
Lemma probe_keeps_disk (E : OS) (fo : FileOrganizer) (categoryPath : path)
    (r r' : run) :
  (forall q, q ∈ ancestors_and_self (fo_BasePath fo) -> disk r !! q = Some NDir) ->
  (forall q, Join (fo_BasePath fo) ".test_permissions" `prefix_of` q ->
             disk r !! q = None) ->
  probe E fo categoryPath r = Some r' -> disk r' = disk r.
Proof.
  intros Hbase Hfree. unfold probe.
  destruct (fo_DryRun fo); [| by intros [= <-]].
  destruct (os_Stat (disk r) categoryPath); [by intros [= <-] |].
  unfold os_MkdirAll.
  destruct (mkdir_fails E _); [done |].
  destruct (existsb _ _); [done |].
  intros [= <-]. simpl. unfold Join.
  rewrite ancestors_and_self_snoc, fold_left_app. simpl.
  rewrite mkdir_existing by done.
  unfold os_RemoveAll.
  destruct (fo_BasePath fo ++ [".test_permissions"])%list eqn:Hp.
  { by apply app_eq_nil in Hp as [_ ?]. }
  rewrite <- Hp. by apply without_fresh_directory.
Qed.

Lemma fold_keeps_disk_while {A : Type} (ok : fsys -> Prop) (step : run -> A -> run)
    (l : list A) (r : run) :
  (forall r x, ok (disk r) -> disk (step r x) = disk r) ->
  ok (disk r) ->
  disk (fold_left step l r) = disk r.
Proof.
  intros Hstep. revert r. induction l as [| x l IH]; intros r Hok; simpl; [done |].
  rewrite IH; [by apply Hstep |]. by rewrite Hstep.
Qed.

(** X20: a dry run of [OrganizeFiles] leaves the disk as it found it
    when the base path is a directory and nothing lies at the path of the
    permission probe, [.test_permissions] below the base path. *)
Lemma OrganizeFiles_dry (E : OS) (fo : FileOrganizer) (order : list string)
    (fs : fsys) :
  fo_DryRun fo = true ->
  (forall q, q ∈ ancestors_and_self (fo_BasePath fo) -> fs !! q = Some NDir) ->
  (forall q, Join (fo_BasePath fo) ".test_permissions" `prefix_of` q ->
             fs !! q = None) ->
  disk (OrganizeFiles E fo order fs) = fs.
Proof.
  intros Hdry Hbase Hfree. unfold OrganizeFiles.
  rewrite (fold_keeps_disk_while
             (fun d => (forall q, q ∈ ancestors_and_self (fo_BasePath fo) ->
                                  d !! q = Some NDir) /\
                       (forall q, Join (fo_BasePath fo) ".test_permissions"
                                    `prefix_of` q -> d !! q = None)));
    [done | | done].
  intros r category [Hb Hf].
  destruct (Categories (fo_Scanner fo) !! category) as [files |]; [| done].
  unfold make_folder. rewrite Hdry.
  destruct (probe E fo _ r) as [r' |] eqn:Hprobe; [| done].
  apply probe_keeps_disk in Hprobe; [| done | done].
  rewrite fold_keeps_disk; [done |].
  intros r0 file. destruct (IsDuplicate file); [done |]. apply place_dry.
Qed.

Lemma OrganizeFiles_dry_witness :
  let fo := NewFileOrganizer twins_scan true ["Downloads"] in
  let fs := disk_of ["Downloads"] twins_tree in
  disk (OrganizeFiles quiet fo ["Documents"; "Images"; "Other"] fs) = fs.
Proof.
  apply (OrganizeFiles_dry quiet (NewFileOrganizer twins_scan true ["Downloads"])
           ["Documents"; "Images"; "Other"] (disk_of ["Downloads"] twins_tree)).
  - reflexivity.
  - intros q Hq. apply list_elem_of_singleton in Hq. subst q.
    vm_compute. reflexivity.
  - intros q [k Hq]. subst q. unfold disk_of.
    apply not_elem_of_list_to_map_1. cbn.
    rewrite !not_elem_of_cons. repeat split; try discriminate.
    apply not_elem_of_nil.
Defined.

(** The files that [OrganizeByDate] and [OrganizeBySize] hand to the
    move do not carry the flag. *)
Lemma date_groups_unflagged (E : OS) (files : list FileInfo) (dateKey : string)
    (group : list FileInfo) (f : FileInfo) :
  date_groups E files !! dateKey = Some group -> f ∈ group ->
  f ∈ files /\ IsDuplicate f = false.
Proof.
  unfold date_groups.
  assert (H : forall m,
    (forall k g x, m !! k = Some g -> x ∈ g -> x ∈ files /\ IsDuplicate x = false) ->
    forall l, (forall x, x ∈ l -> x ∈ files) ->
    forall k g x,
      fold_left (fun dateGroups file =>
                   if IsDuplicate file then dateGroups
                   else <[year_month E (LastModified file) :=
                            (get dateGroups (year_month E (LastModified file))
                             ++ [file])%list]> dateGroups) l m !! k = Some g ->
      x ∈ g -> x ∈ files /\ IsDuplicate x = false).
  { intros m Hm l. revert m Hm. induction l as [| a l IH]; intros m Hm Hl k g x; simpl.
    - apply Hm.
    - apply IH; [| intros y Hy; apply Hl; by apply list_elem_of_further].
      intros k' g' x'. destruct (IsDuplicate a) eqn:Ha; [apply Hm |].
      destruct (decide (year_month E (LastModified a) = k')) as [<- | Hk].
      + rewrite lookup_insert_eq. intros [= <-] [Hx | Hx]%elem_of_app.
        * unfold get in Hx.
          destruct (m !! year_month E (LastModified a)) as [g0 |] eqn:Hg0;
            simpl in Hx; [by eapply Hm | by apply elem_of_nil in Hx].
        * apply list_elem_of_singleton in Hx as ->. split; [| done].
          apply Hl, list_elem_of_here.
      + rewrite lookup_insert_ne by done. apply Hm. }
  intros Hg Hf. eapply (H ∅); [| | exact Hg | exact Hf]; [| done].
  intros k g x Hk. by rewrite lookup_empty in Hk.
Qed.

(** ** The order of [range] in [findDuplicates] *)

Lemma scanner_eq (a b : Scanner) :
  Files a = Files b -> Duplicates a = Duplicates b -> Categories a = Categories b ->
  a = b.
Proof. destruct a, b. simpl. by intros -> -> ->. Qed.

(** X8: in whatever order [range] yields the entries of [hashMap], the
    second loop of [findDuplicates] leaves the same scanner (for records
    with distinct paths). *)
Lemma findDuplicates_any_order (s : Scanner)
    (order : list (string * list FileInfo)) :
  NoDup (Path <$> Files s) ->
  order ≡ₚ map_to_list (group_by_hash (Files s)) ->
  mark_groups order s = findDuplicates s.
Proof.
  intros Hnd Hperm. unfold findDuplicates.
  assert (Hkeys : NoDup order.*1).
  { rewrite Hperm. apply NoDup_fst_map_to_list. }
  apply scanner_eq.
  - rewrite !mark_groups_Files by done. apply list_fmap_ext. intros i f _.
    unfold mark_if.
    assert (Hiff : Path f ∈ marked_paths order <->
                   Path f ∈ marked_paths (map_to_list (group_by_hash (Files s)))).
    { rewrite !marked_paths_spec. by setoid_rewrite Hperm. }
    repeat case_decide; tauto.
  - rewrite !mark_groups_Duplicates. apply map_eq. intros k.
    rewrite !insert_groups_lookup by (done || apply NoDup_fst_map_to_list).
    by rewrite (list_to_map_proper _ _ Hkeys Hperm).
  - by rewrite !mark_groups_Categories.
Qed.

Lemma findDuplicates_any_order_witness :
  let s := (Walk digest ["Downloads"] duplicates_tree NewScanner).1 in
  mark_groups (reverse (map_to_list (group_by_hash (Files s)))) s = findDuplicates s.
Proof.
  apply (findDuplicates_any_order
           (Walk digest ["Downloads"] duplicates_tree NewScanner).1).
  - apply (bool_decide_unpack _). vm_compute. exact I.
  - apply reverse_Permutation.
Defined.

(** ** Screening ([checkZipBomb]) *)

Lemma to_int64_small (z : Z) : 0 <= z < 2 ^ 63 -> to_int64 z = z.
Proof. intros H. unfold to_int64. rewrite Z.mod_small; lia. Qed.

Lemma checkZipBomb_screen (E : OS) (fs : fsys) (p : path) (c : list Byte.byte)
    (files : list zipFile) :
  p <> [] ->
  fs !! p = Some (NFile c) ->
  OpenReader E fs p = Some files ->
  checkZipBomb E fs p = screen (Z.of_nat (length c)) files.
Proof.
  intros Hp Hc Hopen. unfold checkZipBomb, screen, os_Stat.
  destruct p; [done |]. by rewrite Hc, Hopen.
Qed.

Lemma declared_total_nonneg (files : list zipFile) :
  Forall (fun f => 0 <= UncompressedSize64 f) files -> 0 <= declared_total files.
Proof.
  induction 1 as [| f rest Hf _ IH]; simpl; [done |]. lia.
Qed.

(** The loop, read without wrap-around: while the declared sizes stay
    below 2^63 in sum, it passes exactly the lists with at most 10000
    entries, no suspicious entry and a total of at most ten times the
    ceiling. *)
Lemma check_entries_without_wrap (files : list zipFile) (entryCount totalSize : Z) :
  entryCount <= maxZipEntries ->
  0 <= totalSize <= maxZipSize * 10 ->
  Forall (fun f => 0 <= UncompressedSize64 f) files ->
  totalSize + declared_total files < 2 ^ 63 ->
  check_entries files entryCount totalSize = None <->
  entryCount + Z.of_nat (length files) <= maxZipEntries /\
  Forall (fun f => suspicious f = false) files /\
  totalSize + declared_total files <= maxZipSize * 10.
Proof.
  revert entryCount totalSize.
  induction files as [| f rest IH]; intros n t Hn Ht Hsizes Hsum.
  - simpl. split; [intros _ | done]. repeat split; [lia | constructor | lia].
  - apply Forall_cons in Hsizes as [Hf Hrest].
    pose proof (declared_total_nonneg rest Hrest) as Hpos.
    cbn [check_entries declared_total fold_right length] in *.
    fold (declared_total rest) in *.
    destruct (Z.ltb_spec maxZipEntries (n + 1)) as [Hmany | Hfew].
    { split; [done |]. intros (H & _ & _). lia. }
    destruct (suspicious f) eqn:Hsus.
    { split; [done |]. intros (_ & H & _). apply Forall_cons in H as [H _].
      congruence. }
    rewrite (to_int64_small (UncompressedSize64 f)) by lia.
    rewrite to_int64_small by lia.
    destruct (Z.ltb_spec (maxZipSize * 10) (t + UncompressedSize64 f)) as [Hbig | Hok].
    { split; [done |]. intros (_ & _ & H). lia. }
    rewrite IH by (done || lia). split.
    + intros (H1 & H2 & H3). repeat split; [lia | by constructor | lia].
    + intros (H1 & H2 & H3). apply Forall_cons in H2 as [_ H2].
      repeat split; [lia | done | lia].
Qed.

(** Screening on archives whose declared sizes stay below 2^63 in sum:
    it fails exactly when the file is above 100 MiB, or there are more
    than 10000 entries, or an entry is suspicious, or the declared total
    is above ten times the ceiling. *)
Lemma screen_without_wrap (size : Z) (files : list zipFile) :
  Forall (fun f => 0 <= UncompressedSize64 f) files ->
  declared_total files < 2 ^ 63 ->
  screen size files <> None <->
  maxZipSize < size \/
  maxZipEntries < Z.of_nat (length files) \/
  Exists (fun f => suspicious f = true) files \/
  maxZipSize * 10 < declared_total files.
Proof.
  intros Hsizes Hsum. unfold screen.
  destruct (Z.ltb_spec maxZipSize size) as [Hlarge | Hsmall].
  { split; [by left | done]. }
  rewrite check_entries_without_wrap; [| done | done | done | done].
  rewrite !Z.add_0_l. split.
  - intros Hnot.
    destruct (Z.le_gt_cases (Z.of_nat (length files)) maxZipEntries) as [Hlen |];
      [| right; left; lia].
    destruct (Z.le_gt_cases (declared_total files) (maxZipSize * 10)) as [Htot |];
      [| right; right; right; lia].
    right; right; left. apply Exists_exists.
    destruct (decide (Forall (fun f => suspicious f = false) files)) as [Hall | Hsome].
    + exfalso. by apply Hnot.
    + apply not_Forall_Exists in Hsome; [| intros f; apply _].
      apply Exists_exists in Hsome as (f & Hf & Hs). exists f. split; [done |].
      unfold compose in Hs. destruct (suspicious f); [reflexivity | by destruct Hs].
  - intros [H | [H | [H | H]]] (H1 & H2 & H3); [lia | lia | | lia].
    apply Exists_exists in H as (f & Hf & Hs).
    rewrite Forall_forall in H2. specialize (H2 f Hf). congruence.
Qed.

(** * Further properties of the code *)

(** ** Categories and folders *)

Ltac in_list :=
  solve [repeat first [apply list_elem_of_here | apply list_elem_of_further]].

(** X1: every category that the scan can give a file is one of eight and
    is a key of the organizer's table: the folder of a scanned category is
    the category itself, and the fallback "Other" for a category without
    entry in the table is not taken on scanned files. *)
Theorem scanned_category_has_folder (ext name : string) (scanner : Scanner)
    (dryRun : bool) (basePath : path) :
  determineCategory ext name ∈ scan_categories /\
  folder_of (NewFileOrganizer scanner dryRun basePath) (determineCategory ext name)
  = determineCategory ext name.
Proof.
  unfold determineCategory, scan_categories.
  repeat match goal with
         | |- context [if ?b then _ else _] => destruct b
         end;
    (split; [in_list | vm_compute; reflexivity]).
Qed.

Lemma consider_cases (count : Z) (category : string) (st : Z * string) :
  consider count category st = (count, category) \/ consider count category st = st.
Proof. unfold consider. destruct (fst st <? count); auto. Qed.

(** X2: the category that [analyzeZipContents] gives an archive is one of
    six folder names, never "Archives" or "Disk Images", and it is a key
    of the organizer's table, so [ProcessZipFiles] sends the archive to
    the folder of that very name. *)
Theorem archive_category_has_folder (files : list zipFile) (scanner : Scanner)
    (dryRun : bool) (basePath : path) :
  analyzeZipContents files
  ∈ ["Images"; "Documents"; "Videos"; "Music"; "Applications"; "Other"] /\
  folder_of (NewFileOrganizer scanner dryRun basePath) (analyzeZipContents files)
  = analyzeZipContents files.
Proof.
  unfold analyzeZipContents.
  generalize (fold_left count_entry files no_tally). intros t. unfold dominant.
  repeat match goal with
         | |- context [consider ?n ?c ?st] =>
             destruct (consider_cases n c st) as [-> | ->]
         end;
    (split; [in_list | vm_compute; reflexivity]).
Qed.

Lemma tally_eq (t t' : tally) :
  (forall b, bucket_count b t = bucket_count b t') -> t = t'.
Proof.
  intros H.
  pose proof (H BImages). pose proof (H BDocuments). pose proof (H BVideos).
  pose proof (H BAudio). pose proof (H BApplications). pose proof (H BFonts).
  pose proof (H BCode). destruct t, t'. simpl in *. congruence.
Qed.

(** X3: the classification of an archive depends on how many entries each
    bucket has, not on the order in which the central directory lists
    them. *)
Theorem analyzeZipContents_any_order (files files' : list zipFile) :
  files ≡ₚ files' -> analyzeZipContents files = analyzeZipContents files'.
Proof.
  intros Hperm. unfold analyzeZipContents. f_equal. apply tally_eq. intros b.
  rewrite !tally_counts. by rewrite Hperm.
Qed.

Lemma analyzeZipContents_any_order_witness :
  analyzeZipContents tie_archive = analyzeZipContents (reverse tie_archive).
Proof.
  apply (analyzeZipContents_any_order tie_archive (reverse tie_archive)).
  symmetry. apply reverse_Permutation.
Defined.

(** ** More on the scan *)

Lemma findDuplicates_NewScanner : findDuplicates NewScanner = NewScanner.
Proof. reflexivity. Qed.

(** X4: a scan root whose own name starts with a dot (as the name of "."
    does) or ends in ".app" is skipped as a whole: the scan reports
    success and finds nothing, whatever lies below. *)
Theorem skipped_root_scans_nothing md5hex (root : path) (name : string)
    (children : list entry) :
  HasPrefix name "." = true \/ HasSuffix name ".app" = true ->
  ScanDirectory md5hex root (EDir name true children) NewScanner = Some NewScanner.
Proof.
  intros H. unfold ScanDirectory, Walk. cbn [walk negb]. unfold visit_dir.
  destruct (HasPrefix name ".") eqn:Hdot.
  - by rewrite findDuplicates_NewScanner.
  - destruct H as [H | H]; [discriminate |]. rewrite H.
    by rewrite findDuplicates_NewScanner.
Qed.

Lemma skipped_root_scans_nothing_witness :
  ScanDirectory digest ["."] (EDir "." true [a_file "holiday.jpg" 10 "JFIF sea"])
    NewScanner
  = Some NewScanner.
Proof.
  apply (skipped_root_scans_nothing digest ["."] "."
           [a_file "holiday.jpg" 10 "JFIF sea"]).
  left. reflexivity.
Defined.

Lemma visit_file_listed md5hex p name size mtime openable hashable content s :
  listed s ->
  listed (visit_file md5hex p name size mtime openable hashable content s).1.
Proof.
  intros [HF HC]. unfold visit_file.
  destruct (HasPrefix name ".") eqn:Hdot; [done |].
  destruct (Contains (path_string p) ".app/Contents/") eqn:Happ; [done |].
  destruct (negb openable); [done |].
  split; cbn [fst Files Categories].
  - apply Forall_app. split; [done |]. by repeat constructor.
  - intros category. rewrite filter_app.
    set (ext := if String.eqb (ToLower (Ext name)) "" then "no_extension"
                else ToLower (Ext name)).
    destruct (decide (determineCategory ext name = category)) as [<- | Hne].
    + unfold get at 1. rewrite lookup_insert_eq. cbn [from_option id].
      rewrite filter_cons_True by done. rewrite filter_nil.
      f_equal. apply HC.
    + unfold get at 1. rewrite lookup_insert_ne by done.
      rewrite filter_cons_False by done. rewrite filter_nil, app_nil_r.
      apply HC.
Qed.

Lemma clear_duplicate_filter (P : FileInfo -> Prop) `{!forall f, Decision (P f)}
    (l : list FileInfo) :
  (forall f, P (clear_duplicate f) <-> P f) ->
  filter P (clear_duplicate <$> l) = clear_duplicate <$> filter P l.
Proof.
  intros HP. induction l as [| f l IH]; [done |].
  rewrite fmap_cons. destruct (decide (P f)) as [Hf | Hf].
  - rewrite (filter_cons_True P f) by done.
    rewrite filter_cons_True by by apply HP. by rewrite fmap_cons, IH.
  - rewrite (filter_cons_False P f) by done.
    rewrite filter_cons_False; [done |]. by rewrite HP.
Qed.

(** X5: a completed scan lists no hidden file and no file from inside an
    application bundle, and its [Categories] is its [Files] grouped by
    category: under each category the records of that category, in the
    order of [Files], as they were before the flags were set. *)
Theorem scan_lists_by_category md5hex root tree S :
  ScanDirectory md5hex root tree NewScanner = Some S ->
  (forall f, f ∈ Files S ->
     HasPrefix (Name f) "." = false /\
     Contains (path_string (Path f)) ".app/Contents/" = false) /\
  (forall category,
     get (Categories S) category
     = clear_duplicate <$> filter (fun f => Category f = category) (Files S)).
Proof.
  intros (s & HW & _ & -> & Hcat & Hclear)%ScanDirectory_inv.
  assert (Hl : listed s).
  { pose proof (Walk_preserves md5hex listed) as H.
    specialize (H (visit_file_listed md5hex) tree root NewScanner).
    rewrite HW in H. apply H. split; [constructor | done]. }
  destruct Hl as [HF HC]. split.
  - intros f Hf. apply (list_elem_of_fmap_2 clear_duplicate) in Hf.
    rewrite Hclear in Hf. rewrite Forall_forall in HF. by apply HF in Hf.
  - intros category. rewrite Hcat, HC, <- Hclear.
    by apply clear_duplicate_filter.
Qed.

Lemma scan_lists_by_category_witness :
  (forall f, f ∈ Files twins_scan ->
     HasPrefix (Name f) "." = false /\
     Contains (path_string (Path f)) ".app/Contents/" = false) /\
  (forall category,
     get (Categories twins_scan) category
     = clear_duplicate <$> filter (fun f => Category f = category) (Files twins_scan)).
Proof.
  apply (scan_lists_by_category digest ["Downloads"] twins_tree). reflexivity.
Defined.

(** X6: every group of [Duplicates] after a scan has a key that is not
    empty and at least two members, all with the key as their hash; the
    test [len(files) < 2] of the duplicate strategies does not fire on the
    groups of a scan. *)
Theorem duplicate_groups_have_two md5hex root tree S hash files :
  ScanDirectory md5hex root tree NewScanner = Some S ->
  Duplicates S !! hash = Some files ->
  hash <> "" /\ (2 <= length files)%nat /\ Forall (fun f => Hash f = hash) files.
Proof.
  intros (s & HW & (HD & _) & -> & _)%ScanDirectory_inv Hfiles.
  apply findDuplicates_Duplicates in Hfiles as [Hs ->]; [| done].
  apply is_shared_spec in Hs as [Hne Hlen]. split; [done |]. split; [done |].
  apply Forall_forall. by intros f [Hf _]%list_elem_of_filter.
Qed.

Lemma duplicate_groups_have_two_witness :
  exists files,
    Duplicates twins_scan !! "md5:JFIF sea" = Some files /\
    "md5:JFIF sea" <> "" /\ (2 <= length files)%nat /\
    Forall (fun f => Hash f = "md5:JFIF sea") files.
Proof.
  eexists. split; [vm_compute; reflexivity |].
  apply (duplicate_groups_have_two digest ["Downloads"] twins_tree twins_scan).
  - reflexivity.
  - vm_compute. reflexivity.
Defined.

(** X7: after a scan whose records have distinct paths, a record of
    [Files] carries the flag exactly when its hash is not empty and at
    least two records of [Files] have that hash. *)
Theorem flag_iff_hash_shared md5hex root tree S f :
  ScanDirectory md5hex root tree NewScanner = Some S ->
  NoDup (Path <$> Files S) ->
  f ∈ Files S ->
  IsDuplicate f = true <->
  Hash f <> "" /\ (2 <= length (with_hash (Hash f) (Files S)))%nat.
Proof.
  intros (s & HW & (_ & HF & _) & -> & _ & Hclear)%ScanDirectory_inv Hnd Hf.
  assert (HndF : NoDup (Path <$> Files s)).
  { rewrite <- Hclear, <- list_fmap_compose.
    erewrite list_fmap_ext; [exact Hnd |]. by intros ? []. }
  assert (Hlen : forall h, length (with_hash h (Files (findDuplicates s)))
                           = length (with_hash h (Files s))).
  { intros h. rewrite <- Hclear.
    rewrite (with_hash_fmap clear_duplicate) by by intros [].
    by rewrite length_fmap. }
  rewrite Hlen, <- is_shared_spec.
  rewrite findDuplicates_Files in Hf by done. unfold flag_shared in Hf.
  apply list_elem_of_fmap in Hf as (f0 & -> & Hf0).
  rewrite Forall_forall in HF. destruct (HF f0 Hf0) as [Hflag _].
  destruct (is_shared (Files s) (Hash f0)) eqn:Hs; simpl; [by rewrite Hs |].
  rewrite Hs. split; congruence.
Qed.

Lemma flag_iff_hash_shared_witness :
  IsDuplicate (set_duplicate holiday) = true <->
  Hash (set_duplicate holiday) <> "" /\
  (2 <= length (with_hash (Hash (set_duplicate holiday)) (Files twins_scan)))%nat.
Proof.
  apply (flag_iff_hash_shared digest ["Downloads"] twins_tree twins_scan).
  - reflexivity.
  - apply (bool_decide_unpack _). vm_compute. exact I.
  - vm_compute. apply list_elem_of_further, list_elem_of_here.
Defined.

(** ** More on the screening *)

(** X9: for an archive that can be stat'ed and opened and whose declared
    sizes stay below 2^63 in sum, [checkZipBomb] fails exactly when the
    file is above 100 MiB, or it lists more than 10000 entries, or an
    entry is suspicious, or the declared total is above ten times the
    ceiling. *)
Theorem checkZipBomb_fails_iff (E : OS) (fs : fsys) (p : path)
    (c : list Byte.byte) (files : list zipFile) :
  p <> [] ->
  fs !! p = Some (NFile c) ->
  OpenReader E fs p = Some files ->
  Forall (fun f => 0 <= UncompressedSize64 f) files ->
  declared_total files < 2 ^ 63 ->
  checkZipBomb E fs p <> None <->
  maxZipSize < Z.of_nat (length c) \/
  maxZipEntries < Z.of_nat (length files) \/
  Exists (fun f => suspicious f = true) files \/
  maxZipSize * 10 < declared_total files.
Proof.
  intros Hp Hc Hopen Hsizes Hsum.
  rewrite (checkZipBomb_screen E fs p c files) by done.
  by apply screen_without_wrap.
Qed.

Lemma checkZipBomb_fails_iff_witness :
  let fs := disk_of ["Downloads"] one_archive_tree in
  let p := ["Downloads"; "photos.zip"] in
  let files := [entry_of "beach.jpg"; entry_of "notes.txt"; entry_of "sunset.png"] in
  checkZipBomb quiet fs p <> None <->
  maxZipSize < Z.of_nat (length (bytes "PK photos, first download")) \/
  maxZipEntries < Z.of_nat (length files) \/
  Exists (fun f => suspicious f = true) files \/
  maxZipSize * 10 < declared_total files.
Proof.
  apply (checkZipBomb_fails_iff quiet (disk_of ["Downloads"] one_archive_tree)
           ["Downloads"; "photos.zip"] (bytes "PK photos, first download")).
  - discriminate.
  - vm_compute. reflexivity.
  - vm_compute. reflexivity.
  - repeat constructor; vm_compute; discriminate.
  - vm_compute. reflexivity.
Defined.

Lemma check_entries_too_many (files : list zipFile) (entryCount totalSize : Z) :
  entryCount <= maxZipEntries ->
  maxZipEntries < entryCount + Z.of_nat (length files) ->
  check_entries files entryCount totalSize <> None.
Proof.
  revert entryCount totalSize.
  induction files as [| f rest IH]; intros n t Hn Hmany; simpl in *; [lia |].
  destruct (Z.ltb_spec maxZipEntries (n + 1)); [done |].
  destruct (suspicious f); [done |].
  destruct (maxZipSize * 10 <? _); [done |].
  apply IH; lia.
Qed.

Lemma check_entries_suspicious (files : list zipFile) (entryCount totalSize : Z) :
  Exists (fun f => suspicious f = true) files ->
  check_entries files entryCount totalSize <> None.
Proof.
  intros H. revert entryCount totalSize.
  induction H as [f rest Hf | f rest _ IH]; intros n t; simpl.
  - destruct (maxZipEntries <? n + 1); [done |]. by rewrite Hf.
  - destruct (maxZipEntries <? n + 1); [done |].
    destruct (suspicious f); [done |].
    destruct (maxZipSize * 10 <? _); [done |]. apply IH.
Qed.

(** X10: three of the four reasons to reject do not depend on the running
    total: a file above 100 MiB, more than 10000 entries, or a suspicious
    entry make the screening fail whatever sizes the entries declare. *)
Theorem screen_rejects_whatever_the_total (size : Z) (files : list zipFile) :
  maxZipSize < size \/
  maxZipEntries < Z.of_nat (length files) \/
  Exists (fun f => suspicious f = true) files ->
  screen size files <> None.
Proof.
  intros H. unfold screen.
  destruct (Z.ltb_spec maxZipSize size) as [| Hsmall]; [done |].
  destruct H as [H | [H | H]].
  - lia.
  - apply check_entries_too_many; [unfold maxZipEntries; lia | lia].
  - by apply check_entries_suspicious.
Qed.

Lemma screen_rejects_whatever_the_total_witness :
  screen 24 [huge_entry; bomb_entry] <> None.
Proof.
  apply (screen_rejects_whatever_the_total 24 [huge_entry; bomb_entry]).
  right. right. apply Exists_cons_tl, Exists_cons_hd. vm_compute. reflexivity.
Defined.

(** ** The size categories *)

(** X11: the five size categories of [OrganizeBySize] divide the sizes
    from 0 on: a file belongs to exactly one of them, a size on a
    threshold to the upper one. *)
Theorem size_categories_partition (file : FileInfo) :
  0 <= Size file ->
  size_categories_of file = [size_class (Size file)].
Proof.
  intros Hpos. unfold size_categories_of, sizeCategories, in_size_category.
  assert (Hclass :
    forall name min max rest,
      filter (fun c : string * Z * Z =>
                ((c.1.2 =? -1) || (c.1.2 <=? Size file)) &&
                ((c.2 =? -1) || (Size file <? c.2)) = true)
             ((name, min, max) :: rest)
      = ((if ((min =? -1) || (min <=? Size file)) &&
             ((max =? -1) || (Size file <? max))
          then [(name, min, max)] else [])
         ++ filter (fun c : string * Z * Z =>
                      ((c.1.2 =? -1) || (c.1.2 <=? Size file)) &&
                      ((c.2 =? -1) || (Size file <? c.2)) = true) rest)%list).
  { intros name min max rest. rewrite filter_cons. cbn [fst snd].
    destruct (((min =? -1) || (min <=? Size file)) &&
              ((max =? -1) || (Size file <? max))) eqn:Hin.
    - by rewrite decide_True.
    - by rewrite decide_False. }
  rewrite !Hclass, filter_nil. unfold size_class.
  repeat match goal with
         | |- context [?a <=? Size file] => destruct (Z.leb_spec a (Size file))
         | |- context [Size file <? ?a] => destruct (Z.ltb_spec (Size file) a)
         end; try lia; reflexivity.
Qed.

Lemma size_categories_partition_witness :
  size_categories_of (a_record ["Downloads"] "clip.mp4" 10 "md5:c") = ["Tiny"].
Proof.
  apply (size_categories_partition (a_record ["Downloads"] "clip.mp4" 10 "md5:c")).
  vm_compute. discriminate.
Defined.

(** ** Dry runs *)

(** X12: a dry run of any of the four duplicate strategies leaves the
    disk as it found it, whatever the system would refuse and whatever
    the operator answers; [MoveDuplicatesToFolder] does not make the
    folder and does not fail. *)
Theorem duplicate_strategies_dry_run (E : OS) (perIteration : bool)
    (dh : DuplicateHandler) (order : list string) (answers : list (option Z))
    (destFolder : path) (fs : fsys) :
  dh_DryRun dh = true ->
  disk (RemoveDuplicates E dh order fs) = fs /\
  disk (RemoveDuplicatesInteractive E dh order answers fs).1 = fs /\
  disk (RemoveDuplicatesByPattern E perIteration dh order fs) = fs /\
  exists r, MoveDuplicatesToFolder E dh destFolder order fs = Some r /\ disk r = fs.
Proof.
  intros Hdry. split; [by apply RemoveDuplicates_dry |].
  split; [by apply RemoveDuplicatesInteractive_dry |].
  split; [by apply RemoveDuplicatesByPattern_dry |].
  by apply MoveDuplicatesToFolder_dry.
Qed.

Lemma duplicate_strategies_dry_run_witness :
  let dh := NewDuplicateHandler twins_scan true in
  let fs := disk_of ["Downloads"] twins_tree in
  let order := ["md5:JFIF sea"] in
  disk (RemoveDuplicates quiet dh order fs) = fs /\
  disk (RemoveDuplicatesInteractive quiet dh order [None; Some 2] fs).1 = fs /\
  disk (RemoveDuplicatesByPattern quiet false dh order fs) = fs /\
  exists r, MoveDuplicatesToFolder quiet dh ["Downloads"; "Duplicates"] order fs
            = Some r /\ disk r = fs.
Proof.
  apply (duplicate_strategies_dry_run quiet false
           (NewDuplicateHandler twins_scan true)).
  reflexivity.
Defined.

(** X13: a dry run of [OrganizeByDate], of [OrganizeBySize] and of
    [ProcessZipFiles] leaves the disk as it found it: no folder is made
    and no file is moved. *)
Theorem organizer_dry_run (E : OS) (fo : FileOrganizer) (order : list string)
    (fs : fsys) :
  fo_DryRun fo = true ->
  disk (OrganizeByDate E fo order fs) = fs /\
  disk (OrganizeBySize E fo fs) = fs /\
  disk (ProcessZipFiles E fo fs) = fs.
Proof.
  intros Hdry. split; [by apply OrganizeByDate_dry |].
  split; [by apply OrganizeBySize_dry | by apply ProcessZipFiles_dry].
Qed.

Lemma organizer_dry_run_witness :
  let fo := NewFileOrganizer (scan_of ["Downloads"] duplicates_tree) true
              ["Downloads"] in
  let fs := disk_of ["Downloads"] duplicates_tree in
  disk (OrganizeByDate quiet fo ["2025-08"] fs) = fs /\
  disk (OrganizeBySize quiet fo fs) = fs /\
  disk (ProcessZipFiles quiet fo fs) = fs.
Proof.
  apply (organizer_dry_run quiet
           (NewFileOrganizer (scan_of ["Downloads"] duplicates_tree) true
              ["Downloads"])).
  reflexivity.
Defined.

(** ** The keeper of newest-wins *)

Lemma newest_fold (l : list FileInfo) (acc keeper : FileInfo) :
  fold_left
    (fun newestFile file =>
       if After (LastModified file) (LastModified newestFile) then file
       else newestFile) l acc = keeper ->
  (keeper = acc /\ forall f, f ∈ l -> LastModified f <= LastModified acc) \/
  (exists i, l !! i = Some keeper /\
             LastModified acc < LastModified keeper /\
             (forall f, f ∈ l -> LastModified f <= LastModified keeper) /\
             forall j f, (j < i)%nat -> l !! j = Some f ->
                         LastModified f < LastModified keeper).
Proof.
  revert acc. induction l as [| x l IH]; intros acc; cbn [fold_left].
  - intros <-. left. split; [done |]. intros f Hf. by apply elem_of_nil in Hf.
  - unfold After.
    destruct (Z.ltb_spec (LastModified acc) (LastModified x)) as [Hlt | Hge];
      intros Hk.
    + destruct (IH x Hk) as [[-> Hall] | (i & Hi & Hlt' & Hall & Hbefore)].
      * right. exists 0%nat. split; [done |]. split; [done |]. split.
        -- intros f [-> | Hf]%elem_of_cons; [lia | by apply Hall].
        -- intros j f Hj. lia.
      * right. exists (S i). split; [done |]. split; [lia |]. split.
        -- intros f [-> | Hf]%elem_of_cons; [lia | by apply Hall].
        -- intros [| j] f Hj Hf; simpl in Hf.
           ++ injection Hf as <-. lia.
           ++ apply (Hbefore j); [lia | done].
    + destruct (IH acc Hk) as [[-> Hall] | (i & Hi & Hlt' & Hall & Hbefore)].
      * left. split; [done |].
        intros f [-> | Hf]%elem_of_cons; [lia | by apply Hall].
      * right. exists (S i). split; [done |]. split; [done |]. split.
        -- intros f [-> | Hf]%elem_of_cons; [lia | by apply Hall].
        -- intros [| j] f Hj Hf; simpl in Hf.
           ++ injection Hf as <-. lia.
           ++ apply (Hbefore j); [lia | done].
Qed.

(** X14: the file that newest-wins keeps ([RemoveDuplicates],
    [MoveDuplicatesToFolder]) is a member of the group, no member is
    later than it, and among the members with the latest time it is the
    first in the order of the group. *)
Theorem newest_is_first_latest (first : FileInfo) (rest : list FileInfo) :
  let files := first :: rest in
  let keeper := newest first files in
  (forall f, f ∈ files -> LastModified f <= LastModified keeper) /\
  exists i, files !! i = Some keeper /\
            forall j f, (j < i)%nat -> files !! j = Some f ->
                        LastModified f < LastModified keeper.
Proof.
  intros files keeper.
  destruct (newest_fold files first keeper eq_refl)
    as [[Hk Hall] | (i & Hi & _ & Hall & Hbefore)].
  - rewrite Hk. split; [done |].
    exists 0%nat. split; [done |]. intros j f Hj. lia.
  - split; [done |]. by exists i.
Qed.

(** ** What the strategies leave alone *)

Lemma os_Remove_frame (E : OS) (fs : fsys) (p q : path) :
  q <> p -> (os_Remove E fs p).1 !! q = fs !! q.
Proof.
  intros Hq. unfold os_Remove.
  destruct (remove_fails E p); [done |].
  destruct (fs !! p) as [[c |] |]; [| destruct (has_children fs p) |]; simpl;
    rewrite ?lookup_delete_ne; done.
Qed.

Lemma remove_one_frame (E : OS) (dryRun : bool) (file : FileInfo) (r : run)
    (q : path) :
  q <> Path file -> disk (remove_one E dryRun file r) !! q = disk r !! q.
Proof.
  intros Hq. unfold remove_one. destruct dryRun; [done |].
  pose proof (os_Remove_frame E (disk (say (Removing (Name file)) r)) (Path file) q Hq)
    as H.
  destruct (os_Remove E (disk (say (Removing (Name file)) r)) (Path file))
    as [fs' []]; simpl in *; done.
Qed.

Lemma fold_frame {A : Type} (q : path) (step : run -> A -> run) (l : list A)
    (r : run) :
  (forall r x, x ∈ l -> disk (step r x) !! q = disk r !! q) ->
  disk (fold_left step l r) !! q = disk r !! q.
Proof.
  revert r. induction l as [| x l IH]; intros r Hstep; [done |]. simpl.
  rewrite IH.
  - apply Hstep, list_elem_of_here.
  - intros r' y Hy. apply Hstep. by apply list_elem_of_further.
Qed.

(** X15: [RemoveDuplicates] changes the disk only at the paths of group
    members other than the keeper of their group: a path at which every
    member of every group is the keeper of that group (and so every path
    outside the groups) is after the run as it was before, whatever the
    system does. *)
Theorem RemoveDuplicates_spares_the_rest (E : OS) (dh : DuplicateHandler)
    (order : list string) (fs : fsys) (q : path) :
  (forall hash first rest f,
     hash ∈ order ->
     Duplicates (dh_Scanner dh) !! hash = Some (first :: rest) ->
     f ∈ first :: rest -> Path f = q ->
     q = Path (newest first (first :: rest))) ->
  disk (RemoveDuplicates E dh order fs) !! q = fs !! q.
Proof.
  intros Hq. unfold RemoveDuplicates.
  change (fs !! q) with (disk (start fs) !! q).
  apply fold_frame. intros r hash Hhash.
  destruct (Duplicates (dh_Scanner dh) !! hash) as [[| first [| second rest]] |]
    eqn:Hgroup; try done.
  rewrite fold_frame; [done |].
  intros r' file Hfile. case_bool_decide as Hkeep; [done |].
  apply remove_one_frame. intros ->. apply Hkeep.
  by eapply Hq.
Qed.

Lemma RemoveDuplicates_spares_the_rest_witness :
  let dh := NewDuplicateHandler twins_scan false in
  let fs := disk_of ["Downloads"] twins_tree in
  let q := ["Downloads"; "holiday (1).jpg"] in
  disk (RemoveDuplicates quiet dh ["md5:JFIF sea"] fs) !! q = fs !! q.
Proof.
  apply (RemoveDuplicates_spares_the_rest quiet
           (NewDuplicateHandler twins_scan false) ["md5:JFIF sea"]).
  intros hash first rest f Hhash Hgroup Hf Hq.
  apply list_elem_of_singleton in Hhash. subst hash.
  vm_compute in Hgroup. injection Hgroup as <- <-. reflexivity.
Defined.

(** ** The move primitive on other paths and on a missing source *)

Lemma copyAndDelete_frame (E : OS) (fs : fsys) (src dst q : path) :
  q <> src -> q <> dst -> (copyAndDelete E fs src dst).1 !! q = fs !! q.
Proof.
  intros Hqs Hqd. unfold copyAndDelete.
  destruct (open_fails E src); [done |].
  destruct (os_Stat fs src); [| done].
  destruct (create_fails E dst || negb (file_can_be_at fs dst)); [done |].
  destruct (os_Stat (<[dst:=NFile []]> fs) src) as [[c' |] |];
    [| simpl; by rewrite lookup_insert_ne .. ].
  destruct (copy_fails E src); [simpl; by rewrite !lookup_insert_ne |].
  destruct (sync_fails E dst); [simpl; by rewrite !lookup_insert_ne |].
  rewrite os_Remove_frame by done. by rewrite !lookup_insert_ne.
Qed.

Lemma os_Rename_file_frame (E : OS) (fs : fsys) (src dst q : path)
    (c : list Byte.byte) :
  fs !! src = Some (NFile c) -> q <> src -> q <> dst ->
  (os_Rename E fs src dst).1 !! q = fs !! q.
Proof.
  intros Hsrc Hqs Hqd. unfold os_Rename. rewrite Hsrc.
  destruct (rename_fails E src dst); [done |].
  destruct (bool_decide (src = [])); [done |].
  destruct (file_can_be_at fs dst); [| done].
  simpl. by rewrite lookup_insert_ne, lookup_delete_ne.
Qed.

(** X16: a move of a regular file changes nothing at a path that is
    neither the source nor the destination, whether the rename or the
    copy does the work and wherever it stops. *)
Theorem atomicMove_frame (E : OS) (fs : fsys) (src dst q : path)
    (c : list Byte.byte) :
  fs !! src = Some (NFile c) -> q <> src -> q <> dst ->
  (atomicMove E fs src dst).1 !! q = fs !! q.
Proof.
  intros Hsrc Hqs Hqd. unfold atomicMove.
  pose proof (os_Rename_file_frame E fs src dst q c Hsrc Hqs Hqd) as Hr.
  destruct (os_Rename E fs src dst) as [fs1 []]; [done |].
  by apply copyAndDelete_frame.
Qed.

Lemma atomicMove_frame_witness :
  let fs := disk_of ["Downloads"] archive_and_folder_tree in
  (atomicMove (other_volume (Some 5%nat)) fs ["Downloads"; "photos.zip"]
     ["Downloads"; "Images"; "photos.zip"]).1 !! ["Downloads"; "Images"]
  = fs !! ["Downloads"; "Images"].
Proof.
  apply (atomicMove_frame (other_volume (Some 5%nat))
           (disk_of ["Downloads"] archive_and_folder_tree)
           ["Downloads"; "photos.zip"] ["Downloads"; "Images"; "photos.zip"]
           ["Downloads"; "Images"] (bytes "PK photos, first download")).
  - vm_compute. reflexivity.
  - discriminate.
  - discriminate.
Defined.

(** X17: a move whose source is not there (a duplicate that was removed
    before the organizer runs) reports failure and leaves the disk as it
    is; nothing is created at the destination. *)
Theorem atomicMove_missing_source (E : OS) (fs : fsys) (src dst : path) :
  src <> [] -> fs !! src = None -> atomicMove E fs src dst = (fs, false).
Proof.
  intros Hne Hsrc.
  assert (Hcopy : copyAndDelete E fs src dst = (fs, false)).
  { unfold copyAndDelete. destruct (open_fails E src); [done |].
    unfold os_Stat. destruct src; [done |]. by rewrite Hsrc. }
  unfold atomicMove, os_Rename. rewrite Hsrc.
  destruct (rename_fails E src dst); [done |].
  by destruct (bool_decide (src = [])).
Qed.

Lemma atomicMove_missing_source_witness :
  let fs := disk_of ["Downloads"] archive_and_folder_tree in
  atomicMove quiet fs ["Downloads"; "gone.zip"] ["Downloads"; "Images"; "gone.zip"]
  = (fs, false).
Proof.
  apply (atomicMove_missing_source quiet
           (disk_of ["Downloads"] archive_and_folder_tree)).
  - discriminate.
  - vm_compute. reflexivity.
Defined.

(** ** Nothing to resolve *)

Lemma fold_left_unchanged {A B : Type} (step : A -> B -> A) (l : list B) (a : A) :
  (forall a x, step a x = a) -> fold_left step l a = a.
Proof.
  intros H. induction l as [| x l IH]; [done |]. simpl. by rewrite H.
Qed.

(** X18: when the scan found no duplicate group, none of the four
    duplicate strategies does anything: the disk is untouched, no
    decision is printed, nothing is counted, and
    [MoveDuplicatesToFolder] returns before it makes the folder. *)
Theorem no_duplicates_no_action (E : OS) (perIteration : bool)
    (dh : DuplicateHandler) (order : list string) (answers : list (option Z))
    (destFolder : path) (fs : fsys) :
  Duplicates (dh_Scanner dh) = ∅ ->
  RemoveDuplicates E dh order fs = start fs /\
  RemoveDuplicatesInteractive E dh order answers fs = (start fs, true) /\
  RemoveDuplicatesByPattern E perIteration dh order fs = start fs /\
  MoveDuplicatesToFolder E dh destFolder order fs = Some (start fs).
Proof.
  intros Hnone. repeat split.
  - unfold RemoveDuplicates. apply fold_left_unchanged.
    intros r hash. by rewrite Hnone, lookup_empty.
  - unfold RemoveDuplicatesInteractive.
    replace (omap (fun hash => Duplicates (dh_Scanner dh) !! hash) order)
      with (@nil (list FileInfo)); [done |].
    rewrite Hnone. induction order as [| hash order IH]; [done |].
    simpl. rewrite lookup_empty. exact IH.
  - unfold RemoveDuplicatesByPattern. apply fold_left_unchanged.
    intros r hash. by rewrite Hnone, lookup_empty.
  - unfold MoveDuplicatesToFolder. by rewrite bool_decide_eq_true_2.
Qed.

Lemma no_duplicates_no_action_witness :
  let dh := NewDuplicateHandler NewScanner false in
  let fs := disk_of ["Downloads"] one_archive_tree in
  RemoveDuplicates quiet dh ["md5:x"] fs = start fs /\
  RemoveDuplicatesInteractive quiet dh ["md5:x"] [Some 1] fs = (start fs, true) /\
  RemoveDuplicatesByPattern quiet true dh ["md5:x"] fs = start fs /\
  MoveDuplicatesToFolder quiet dh ["Downloads"; "Duplicates"] ["md5:x"] fs
  = Some (start fs).
Proof.
  apply (no_duplicates_no_action quiet true (NewDuplicateHandler NewScanner false)).
  reflexivity.
Defined.

(** ** The question of the interactive strategy *)

(** X21: an answer that ends the question for a group of [n] files is 0
    (skip) or a number from 1 to [n], so [files[choice-1]] is a member of
    the group; the answers before it were used up, one per round, and the
    disk is not touched while asking. *)
Theorem ask_gives_valid_choice (n : nat) (answers : list (option Z)) (r r' : run)
    (choice : Z) (rest : list (option Z)) :
  ask n answers r = (Some (choice, rest), r') ->
  0 <= choice <= Z.of_nat n /\
  (exists used, answers = (used ++ Some choice :: rest)%list /\
                Forall (fun a => forall c, a = Some c -> c < 0 \/ Z.of_nat n < c) used) /\
  (choice <> 0 ->
   forall files : list FileInfo, length files = n ->
     is_Some (files !! Z.to_nat (choice - 1))) /\
  disk r' = disk r.
Proof.
  revert r. induction answers as [| [c |] answers IH]; intros r Hask; simpl in Hask.
  - discriminate.
  - destruct (Z.eqb_spec c 0) as [-> | Hc0].
    + injection Hask as <- <- <-. split; [lia |]. split.
      * exists []. split; [done | constructor].
      * split; [done | done].
    + destruct (Z.ltb_spec c 1) as [Hlow | Hlow]; simpl in Hask.
      * destruct (IH _ Hask) as (H1 & (used & -> & Hused) & H3 & H4).
        split; [done |]. split; [| split; [done | done]].
        exists (Some c :: used). split; [done |].
        constructor; [| done]. intros c' [= <-]. lia.
      * destruct (Z.ltb_spec (Z.of_nat n) c) as [Hhigh | Hhigh].
        -- destruct (IH _ Hask) as (H1 & (used & -> & Hused) & H3 & H4).
           split; [done |]. split; [| split; [done | done]].
           exists (Some c :: used). split; [done |].
           constructor; [| done]. intros c' [= <-]. lia.
        -- injection Hask as <- <- <-. split; [lia |]. split.
           ++ exists []. split; [done | constructor].
           ++ split; [| done]. intros _ files Hlen.
              apply lookup_lt_is_Some. lia.
  - destruct (IH _ Hask) as (H1 & (used & -> & Hused) & H3 & H4).
    split; [done |]. split; [| split; [done | done]].
    exists (None :: used). split; [done |].
    constructor; [| done]. intros c' [=].
Qed.

Lemma ask_gives_valid_choice_witness :
  0 <= 2 <= Z.of_nat 2 /\
  (exists used, [None; Some 5; Some 2; Some 1] = (used ++ Some 2 :: [Some 1])%list /\
                Forall (fun a => forall c, a = Some c -> c < 0 \/ Z.of_nat 2 < c) used) /\
  (2 <> 0 ->
   forall files : list FileInfo, length files = 2%nat ->
     is_Some (files !! Z.to_nat (2 - 1))) /\
  disk (say (OutOfRange 2) (say InvalidNumber (start ∅))) = disk (start ∅).
Proof.
  apply (ask_gives_valid_choice 2 [None; Some 5; Some 2; Some 1] (start ∅)).
  reflexivity.
Defined.

(** ** The path check of the command line *)

Lemma HasPrefix_app (s t p : string) :
  HasPrefix s p = true -> HasPrefix (s ++ t) p = true.
Proof.
  assert (Hnil : forall s, HasPrefix s "" = true) by by intros [].
  revert s. induction p as [| c p IH]; intros s; [by rewrite !Hnil |].
  destruct s as [| d s]; simpl; [done |].
  destruct (Ascii.eqb c d); simpl; [apply IH | done].
Qed.

(** X22: [validatePath] compares text, not path components: when a path
    is accepted, every path whose absolute form continues the absolute
    form of the accepted one is accepted too, unless it contains "..";
    with the home directory [/home/al] that holds for
    [/home/alice/Downloads]. *)
Theorem validatePath_accepts_continuations (V : Env)
    (path path' absPath suffix : string) :
  validatePath V path = None ->
  Abs V path = Some absPath ->
  path' <> "" ->
  Abs V path' = Some (absPath ++ suffix) ->
  Contains (absPath ++ suffix) ".." = false ->
  validatePath V path' = None.
Proof.
  unfold validatePath. intros Hok Habs Hne Habs' Hdots.
  destruct (String.eqb_spec path' ""); [done |].
  rewrite Habs', Hdots.
  destruct (String.eqb path ""); [done |]. rewrite Habs in Hok.
  destruct (Contains absPath ".."); [done |].
  destruct (UserHomeDir V) as [homeDir |]; [| done].
  destruct (HasPrefix absPath homeDir) eqn:H1;
    [by rewrite (HasPrefix_app _ _ _ H1) |].
  destruct (HasPrefix absPath (TempDir V)) eqn:H2;
    [by rewrite (HasPrefix_app _ _ _ H2), andb_false_r |].
  destruct (HasPrefix absPath "/tmp") eqn:H3;
    [by rewrite (HasPrefix_app _ _ _ H3), !andb_false_r |].
  destruct (HasPrefix absPath "/var/folders") eqn:H4;
    [by rewrite (HasPrefix_app _ _ _ H4), !andb_false_r |].
  done.
Qed.

Lemma validatePath_accepts_continuations_witness :
  validatePath home_of_al "/home/alice/Downloads" = None.
Proof.
  apply (validatePath_accepts_continuations home_of_al "/home/al"
           "/home/alice/Downloads" "/home/al" "ice/Downloads");
    [reflexivity | reflexivity | discriminate | reflexivity | reflexivity].
Defined.

(** ** The groups of [OrganizeByDate] *)

Lemma date_fold_lookup (E : OS) (files : list FileInfo)
    (m : gmap string (list FileInfo)) (k : string) :
  fold_left
    (fun dateGroups file =>
       if IsDuplicate file then dateGroups
       else
         let dateKey := year_month E (LastModified file) in
         <[dateKey := (get dateGroups dateKey ++ [file])%list]> dateGroups)
    files m !! k
  = match m !! k,
          filter (fun f => IsDuplicate f = false /\
                           year_month E (LastModified f) = k) files with
    | None, [] => None
    | o, l => Some (default [] o ++ l)%list
    end.
Proof.
  revert m. induction files as [| f rest IH]; intros m; cbn [fold_left].
  - rewrite filter_nil. destruct (m !! k) as [l |]; simpl; by rewrite ?app_nil_r.
  - rewrite IH. destruct (IsDuplicate f) eqn:Hf.
    + rewrite filter_cons_False; [done |]. intros [H _]. congruence.
    + cbn zeta. destruct (decide (year_month E (LastModified f) = k)) as [<- | Hne].
      * rewrite lookup_insert_eq. rewrite filter_cons_True by done. unfold get.
        destruct (m !! year_month E (LastModified f)) as [l |]; simpl;
          by rewrite <- ?app_assoc.
      * rewrite lookup_insert_ne by done.
        rewrite filter_cons_False; [done |]. by intros [_ H].
Qed.

(** X23: the groups of [OrganizeByDate] are the records of [Files]
    without the flag, by year and month of their modification time, in
    the order of [Files]; a record with the flag (the keeper of a
    duplicate group as well as its copies) is in no group, and there is
    no empty group. *)
Theorem date_groups_by_month (E : OS) (files : list FileInfo)
    (dateKey : string) (group : list FileInfo) :
  date_groups E files !! dateKey = Some group <->
  group = filter (fun f => IsDuplicate f = false /\
                           year_month E (LastModified f) = dateKey) files /\
  group <> [].
Proof.
  unfold date_groups. rewrite date_fold_lookup, lookup_empty. cbn [default from_option].
  destruct (filter _ files) as [| f l].
  - split; [done | by intros [-> ?]].
  - split; [by intros [= <-] | by intros [-> _]].
Qed.

(** ** Letter case in names *)











(** ** Moves of the organizer lose no content *)

(** X25: the step that [OrganizeFiles], [OrganizeByDate] and
    [OrganizeBySize] share loses no content: when the record points to a
    regular file, the bytes of every regular file on the disk are on the
    disk after the step too, whatever the system refuses and wherever a
    copy breaks; the destination is tested before the move, so no file is
    replaced. *)
Theorem place_keeps_every_content (E : OS) (dryRun : bool) (folderPath : path)
    (folderName : string) (file : FileInfo) (r : run) (c0 : list Byte.byte) :
  disk r !! Path file = Some (NFile c0) ->
  forall q c, disk r !! q = Some (NFile c) ->
    exists q', disk (place E dryRun folderPath folderName file r) !! q'
               = Some (NFile c).
Proof.
  intros Hsrc q c Hq. unfold place.
  case_bool_decide; [by exists q |].
  destruct (os_Stat (disk r) (Join folderPath (Name file))) as [n |] eqn:Hdst;
    [by exists q |].
  destruct dryRun; [by exists q |].
  set (dst := Join folderPath (Name file)) in *.
  assert (Hnone : disk r !! dst = None).
  { unfold os_Stat, dst, Join in Hdst. unfold dst, Join.
    by destruct (folderPath ++ [Name file])%list. }
  assert (Hne : Path file <> dst) by congruence.
  cbn [disk say].
  destruct (decide (q = Path file)) as [-> | Hqs].
  - assert (c = c0) as -> by congruence.
    destruct (atomicMove E (disk r) (Path file) dst) as [fs' ok] eqn:Hmove.
    unfold atomicMove in Hmove.
    destruct (os_Rename E (disk r) (Path file) dst) as [fs1 ok1] eqn:Hren.
    pose proof (os_Rename_spec E _ _ _ c0 Hne Hsrc _ _ Hren) as Hr.
    destruct ok1.
    + injection Hmove as <- <-. exists dst. by destruct Hr.
    + pose proof (copyAndDelete_spec E _ _ _ c0 Hne Hsrc _ _ Hmove) as Hc.
      destruct ok; [exists dst; by destruct Hc as (_ & ? & _) | by exists (Path file)].
  - exists q. assert (Hqd : q <> dst) by congruence. unfold atomicMove.
    pose proof (os_Rename_file_frame E (disk r) (Path file) dst q c0 Hsrc Hqs Hqd)
      as Hr.
    pose proof (copyAndDelete_frame E (disk r) (Path file) dst q Hqs Hqd) as Hc.
    destruct (os_Rename E (disk r) (Path file) dst) as [fs1 []]; simpl in *;
      [congruence |].
    destruct (copyAndDelete E (disk r) (Path file) dst) as [fs' []]; simpl in *;
      congruence.
Qed.

Lemma place_keeps_every_content_witness :
  let fs := disk_of ["Downloads"] twins_tree in
  exists q',
    disk (place quiet false ["Downloads"; "Images"] "Images" holiday (start fs)) !! q'
    = Some (NFile (bytes "Dear all")).
Proof.
  refine (place_keeps_every_content quiet false ["Downloads"; "Images"] "Images"
            holiday (start (disk_of ["Downloads"] twins_tree)) (bytes "JFIF sea")
            _ ["Downloads"; "letter.txt"] (bytes "Dear all") _);
    vm_compute; reflexivity.
Defined.

(** ** What [RemoveDuplicates] removes *)

Lemma os_Remove_kind (E : OS) (fs : fsys) (p q : path) :
  fs !! q = None \/ (exists c, fs !! q = Some (NFile c)) ->
  (os_Remove E fs p).1 !! q = None \/
  (exists c, (os_Remove E fs p).1 !! q = Some (NFile c)).
Proof.
  intros Hq. destruct (decide (q = p)) as [-> | Hne].
  - unfold os_Remove. destruct (remove_fails E p); [done |].
    destruct Hq as [Hq | [c Hq]]; rewrite Hq; simpl; [by left |].
    left. apply lookup_delete_eq.
  - by rewrite os_Remove_frame.
Qed.

Lemma remove_one_kind (E : OS) (dryRun : bool) (file : FileInfo) (r : run)
    (q : path) :
  disk r !! q = None \/ (exists c, disk r !! q = Some (NFile c)) ->
  disk (remove_one E dryRun file r) !! q = None \/
  (exists c, disk (remove_one E dryRun file r) !! q = Some (NFile c)).
Proof.
  intros Hq. unfold remove_one. destruct dryRun; [done |].
  pose proof (os_Remove_kind E (disk (say (Removing (Name file)) r)) (Path file) q Hq)
    as H.
  destruct (os_Remove E (disk (say (Removing (Name file)) r)) (Path file))
    as [fs' []]; simpl in *; done.
Qed.

Lemma remove_one_None (E : OS) (dryRun : bool) (file : FileInfo) (r : run)
    (q : path) :
  disk r !! q = None -> disk (remove_one E dryRun file r) !! q = None.
Proof.
  intros Hq. unfold remove_one. destruct dryRun; [done |].
  unfold os_Remove. cbn [disk say].
  destruct (remove_fails E (Path file)); [done |].
  destruct (disk r !! Path file) as [[c |] |] eqn:Hp; [| | done].
  - simpl. destruct (decide (q = Path file)) as [-> | Hne];
      [apply lookup_delete_eq | by rewrite lookup_delete_ne].
  - destruct (has_children (disk r) (Path file)); [done |]. simpl.
    destruct (decide (q = Path file)) as [-> | Hne];
      [apply lookup_delete_eq | by rewrite lookup_delete_ne].
Qed.

Lemma remove_one_removes (E : OS) (file : FileInfo) (r : run) :
  remove_fails E (Path file) = false ->
  disk r !! Path file = None \/ (exists c, disk r !! Path file = Some (NFile c)) ->
  disk (remove_one E false file r) !! Path file = None.
Proof.
  intros Hok Hq. unfold remove_one, os_Remove. cbn [disk say]. rewrite Hok.
  destruct Hq as [Hq | [c Hq]]; rewrite Hq; simpl; [done |].
  apply lookup_delete_eq.
Qed.

Lemma fold_invariant {A B : Type} (P : A -> Prop) (step : A -> B -> A)
    (l : list B) (a : A) :
  (forall a x, P a -> P (step a x)) -> P a -> P (fold_left step l a).
Proof.
  intros Hstep. revert a. induction l as [| x l IH]; intros a Ha; [done |].
  simpl. by apply IH, Hstep.
Qed.

(** X26: when nothing is refused, [RemoveDuplicates] removes every member
    of a group that is not at the keeper's path: after the run the path
    of such a member, a regular file before, is gone, in whatever order
    the groups are taken. *)
Theorem RemoveDuplicates_removes_copies (E : OS) (dh : DuplicateHandler)
    (order : list string) (fs : fsys) (hash : string) (first second : FileInfo)
    (rest : list FileInfo) (f : FileInfo) (c : list Byte.byte) :
  dh_DryRun dh = false ->
  hash ∈ order ->
  Duplicates (dh_Scanner dh) !! hash = Some (first :: second :: rest) ->
  f ∈ first :: second :: rest ->
  Path f <> Path (newest first (first :: second :: rest)) ->
  fs !! Path f = Some (NFile c) ->
  remove_fails E (Path f) = false ->
  disk (RemoveDuplicates E dh order fs) !! Path f = None.
Proof.
  intros Hwet Hhash Hgroup Hf Hkeeper Hfile Hok. unfold RemoveDuplicates.
  set (kind := fun r : run =>
         disk r !! Path f = None \/ exists c, disk r !! Path f = Some (NFile c)).
  set (gone := fun r : run => disk r !! Path f = None).
  set (inner := fun (newestFile : FileInfo) (r : run) (file : FileInfo) =>
         if bool_decide (Path file = Path newestFile) then r
         else remove_one E (dh_DryRun dh) file r).
  set (outer := fun (r : run) (hash : string) =>
         match Duplicates (dh_Scanner dh) !! hash with
         | Some ((first :: _ :: _) as files) =>
             let newestFile := newest first files in
             fold_left (inner newestFile) files (say (Keeping (Name newestFile)) r)
         | _ => r
         end).
  change (gone (fold_left outer order (start fs))).
  assert (Hkind : forall r h, kind r -> kind (outer r h)).
  { intros r h Hr. unfold outer.
    destruct (Duplicates (dh_Scanner dh) !! h) as [[| a [| b l]] |]; try done.
    apply fold_invariant; [| done].
    intros r' x Hr'. unfold inner. case_bool_decide; [done |].
    by apply remove_one_kind. }
  assert (Hgone : forall r h, gone r -> gone (outer r h)).
  { intros r h Hr. unfold outer.
    destruct (Duplicates (dh_Scanner dh) !! h) as [[| a [| b l]] |]; try done.
    apply fold_invariant; [| done].
    intros r' x Hr'. unfold inner. case_bool_decide; [done |].
    by apply remove_one_None. }
  assert (Hhere : forall r, kind r -> gone (outer r hash)).
  { intros r Hr. unfold outer. rewrite Hgroup. cbn zeta.
    set (keeper := newest first (first :: second :: rest)) in *.
    apply list_elem_of_split in Hf as (l1 & l2 & Hsplit).
    rewrite Hsplit, fold_left_app. cbn [fold_left].
    apply fold_invariant.
    - intros r' x Hr'. unfold inner. case_bool_decide; [done |].
      by apply remove_one_None.
    - unfold inner at 1. rewrite bool_decide_eq_false_2 by done. rewrite Hwet.
      apply remove_one_removes; [done |].
      apply (fold_invariant kind); [| done].
      intros r' x Hr'. unfold inner. case_bool_decide; [done |].
      by apply remove_one_kind. }
  apply list_elem_of_split in Hhash as (o1 & o2 & ->).
  rewrite fold_left_app. cbn [fold_left].
  apply fold_invariant; [done |]. apply Hhere.
  apply (fold_invariant kind); [done |]. right. by exists c.
Qed.

Lemma RemoveDuplicates_removes_copies_witness :
  let dh := NewDuplicateHandler twins_scan false in
  let fs := disk_of ["Downloads"] twins_tree in
  disk (RemoveDuplicates quiet dh ["md5:JFIF sea"] fs) !! Path holiday = None.
Proof.
  refine (RemoveDuplicates_removes_copies quiet
            (NewDuplicateHandler twins_scan false) ["md5:JFIF sea"]
            (disk_of ["Downloads"] twins_tree) "md5:JFIF sea"
            holiday_copy holiday [] holiday (bytes "JFIF sea") _ _ _ _ _ _ _).
  - reflexivity.
  - apply list_elem_of_here.
  - vm_compute. reflexivity.
  - apply list_elem_of_further, list_elem_of_here.
  - vm_compute. discriminate.
  - vm_compute. reflexivity.
  - reflexivity.
Defined.

(** ** The keys of the duplicate table *)

Lemma visit_file_digests md5hex p name size mtime openable hashable content s :
  Forall (fun f => Hash f = "" \/ exists c, Hash f = md5hex c) (Files s) ->
  Forall (fun f => Hash f = "" \/ exists c, Hash f = md5hex c)
         (Files (visit_file md5hex p name size mtime openable hashable content s).1).
Proof.
  intros HF. unfold visit_file.
  destruct (HasPrefix name "."); [done |].
  destruct (Contains (path_string p) ".app/Contents/"); [done |].
  destruct (negb openable); [done |].
  cbn [fst Files]. apply Forall_app. split; [done |].
  constructor; [| constructor]. cbn [Hash]. unfold calculateFileHash.
  destruct hashable; simpl; eauto.
Qed.

(** X27: every key of [Duplicates] after a scan is a digest that
    [calculateFileHash] returned for some content: the reports slice
    [hash[:8]] from a digest, never from the empty string that stands for
    a failed hash. *)
Theorem duplicate_keys_are_digests md5hex root tree S hash files :
  ScanDirectory md5hex root tree NewScanner = Some S ->
  Duplicates S !! hash = Some files ->
  exists content, hash = md5hex content.
Proof.
  intros (s & HW & (HD & _) & -> & _)%ScanDirectory_inv Hfiles.
  assert (Hdig : Forall (fun f => Hash f = "" \/ exists c, Hash f = md5hex c)
                        (Files s)).
  { pose proof (Walk_preserves md5hex
                  (fun s => Forall (fun f => Hash f = "" \/
                                             exists c, Hash f = md5hex c) (Files s)))
      as H.
    specialize (H (visit_file_digests md5hex) tree root NewScanner).
    rewrite HW in H. apply H. constructor. }
  apply findDuplicates_Duplicates in Hfiles as [Hs ->]; [| done].
  apply is_shared_spec in Hs as [Hne Hlen].
  destruct (with_hash hash (Files s)) as [| f l] eqn:Hw; [simpl in Hlen; lia |].
  assert (Hf : f ∈ with_hash hash (Files s)) by (rewrite Hw; apply list_elem_of_here).
  apply list_elem_of_filter in Hf as [Hh Hf].
  rewrite Forall_forall in Hdig. destruct (Hdig f Hf) as [He | [c Hc]].
  - congruence.
  - exists c. congruence.
Qed.

Lemma duplicate_keys_are_digests_witness :
  exists content, "md5:JFIF sea" = digest content.
Proof.
  refine (duplicate_keys_are_digests digest ["Downloads"] twins_tree twins_scan
            "md5:JFIF sea" [holiday_copy; holiday] _ _).
  - reflexivity.
  - vm_compute. reflexivity.
Defined.

(** ** What [MoveDuplicatesToFolder] leaves alone *)

Lemma os_MkdirAll_frame (E : OS) (fs : fsys) (p q : path) :
  q ∉ ancestors_and_self p -> (os_MkdirAll E fs p).1 !! q = fs !! q.
Proof.
  intros Hq. unfold os_MkdirAll.
  destruct (mkdir_fails E p); [done |].
  destruct (existsb _ (ancestors_and_self p)); [done |]. cbn [fst].
  revert fs. induction (ancestors_and_self p) as [| a l IH]; intros fs; [done |].
  apply not_elem_of_cons in Hq as [Hqa Hql]. cbn [fold_left].
  rewrite IH by done. by rewrite lookup_insert_ne.
Qed.

Lemma os_MkdirAll_files (E : OS) (fs fs' : fsys) (p q : path) (c : list Byte.byte) :
  fs !! q = Some (NFile c) -> os_MkdirAll E fs p = (fs', true) ->
  fs' !! q = Some (NFile c).
Proof.
  intros Hq Hmk.
  assert (Hnot : q ∉ ancestors_and_self p).
  { intros Hin. unfold os_MkdirAll in Hmk.
    destruct (mkdir_fails E p); [done |].
    destruct (existsb _ (ancestors_and_self p)) eqn:Hex; [done |].
    apply not_true_iff_false in Hex. apply Hex.
    apply existsb_exists. exists q. split; [by apply list_elem_of_In |].
    by rewrite Hq. }
  pose proof (os_MkdirAll_frame E fs p q Hnot) as H. rewrite Hmk in H.
  simpl in H. congruence.
Qed.

Lemma insert_regular (fs : fsys) (d p : path) (c : list Byte.byte) :
  regular fs p -> regular (<[d := NFile c]> fs) p.
Proof.
  intros Hp. unfold regular. destruct (decide (p = d)) as [-> | Hne].
  - right. exists c. apply lookup_insert_eq.
  - by rewrite lookup_insert_ne.
Qed.

Lemma delete_regular (fs : fsys) (d p : path) :
  regular fs p -> regular (delete d fs) p.
Proof.
  intros Hp. unfold regular. destruct (decide (p = d)) as [-> | Hne].
  - left. apply lookup_delete_eq.
  - by rewrite lookup_delete_ne.
Qed.

Lemma copyAndDelete_regular (E : OS) (fs : fsys) (src dst p : path) :
  regular fs p -> regular (copyAndDelete E fs src dst).1 p.
Proof.
  intros Hp. unfold copyAndDelete.
  destruct (open_fails E src); [done |].
  destruct (os_Stat fs src); [| done].
  destruct (create_fails E dst || negb (file_can_be_at fs dst)); [done |].
  destruct (os_Stat (<[dst:=NFile []]> fs) src) as [[c' |] |];
    [| by apply insert_regular ..].
  destruct (copy_fails E src); [by do 2 apply insert_regular |].
  destruct (sync_fails E dst); [by do 2 apply insert_regular |].
  apply os_Remove_kind. by do 2 apply insert_regular.
Qed.

Lemma atomicMove_regular (E : OS) (fs : fsys) (src dst p : path) :
  regular fs src -> regular fs p -> regular (atomicMove E fs src dst).1 p.
Proof.
  intros Hsrc Hp. unfold atomicMove.
  destruct (os_Rename E fs src dst) as [fs1 ok] eqn:Hren;
    destruct ok; [| by apply copyAndDelete_regular].
  unfold os_Rename in Hren.
  destruct (rename_fails E src dst); [done |].
  destruct (bool_decide (src = [])); [done |].
  destruct Hsrc as [Hsrc | [c Hsrc]]; rewrite Hsrc in Hren; [done |].
  destruct (file_can_be_at fs dst); [| done].
  injection Hren as <-. cbn [fst]. by apply insert_regular, delete_regular.
Qed.

Lemma atomicMove_regular_frame (E : OS) (fs : fsys) (src dst q : path) :
  regular fs src -> q <> src -> q <> dst ->
  (atomicMove E fs src dst).1 !! q = fs !! q.
Proof.
  intros Hsrc Hqs Hqd. unfold atomicMove.
  pose proof (copyAndDelete_frame E fs src dst q Hqs Hqd) as Hc.
  destruct Hsrc as [Hsrc | [c Hsrc]].
  - unfold os_Rename. rewrite Hsrc.
    destruct (rename_fails E src dst); [done |].
    by destruct (bool_decide (src = [])).
  - pose proof (os_Rename_file_frame E fs src dst q c Hsrc Hqs Hqd) as Hr.
    by destruct (os_Rename E fs src dst) as [fs1 []].
Qed.

Lemma fold_invariant_in {A B : Type} (P : A -> Prop) (step : A -> B -> A)
    (l : list B) (a : A) :
  (forall a x, x ∈ l -> P a -> P (step a x)) -> P a -> P (fold_left step l a).
Proof.
  revert a. induction l as [| x l IH]; intros a Hstep Ha; [done |]. simpl.
  apply IH.
  - intros a' y Hy. apply Hstep. by apply list_elem_of_further.
  - apply Hstep; [apply list_elem_of_here | done].
Qed.

(** X28: [MoveDuplicatesToFolder] on groups of regular files changes the
    disk only at the paths of the members it moves, at their
    destinations in the folder, and at the folder with the directories
    above it: any other path, the path of a group's keeper among them,
    is after the run as it was before, whatever the system refuses. *)
Theorem MoveDuplicatesToFolder_spares_the_rest (E : OS) (dh : DuplicateHandler)
    (destFolder : path) (order : list string) (fs : fsys) (q : path) (r : run) :
  (forall hash files f,
     Duplicates (dh_Scanner dh) !! hash = Some files -> f ∈ files ->
     exists c, fs !! Path f = Some (NFile c)) ->
  (forall hash first rest f,
     hash ∈ order ->
     Duplicates (dh_Scanner dh) !! hash = Some (first :: rest) ->
     f ∈ first :: rest -> Path f = q ->
     q = Path (newest first (first :: rest))) ->
  (forall hash files f,
     Duplicates (dh_Scanner dh) !! hash = Some files -> f ∈ files ->
     q <> Join destFolder (Name f)) ->
  q ∉ ancestors_and_self destFolder ->
  MoveDuplicatesToFolder E dh destFolder order fs = Some r ->
  disk r !! q = fs !! q.
Proof.
  intros Hfiles Hkeeper Hdest Hfolder. unfold MoveDuplicatesToFolder.
  case_bool_decide; [by intros [= <-] |].
  set (inv := fun r : run =>
         disk r !! q = fs !! q /\
         forall hash files f,
           Duplicates (dh_Scanner dh) !! hash = Some files -> f ∈ files ->
           regular (disk r) (Path f)).
  assert (Hstart : forall fs1,
            (if dh_DryRun dh then (fs, true) else os_MkdirAll E fs destFolder)
            = (fs1, true) -> inv (start fs1)).
  { intros fs1 Hmk. split; cbn [disk start].
    - destruct (dh_DryRun dh); [by injection Hmk as <- |].
      pose proof (os_MkdirAll_frame E fs destFolder q Hfolder) as H0.
      by rewrite Hmk in H0.
    - intros hash files f Hgroup Hf.
      destruct (Hfiles hash files f Hgroup Hf) as [c Hc]. right. exists c.
      destruct (dh_DryRun dh); [by injection Hmk as <- |].
      by eapply os_MkdirAll_files. }
  destruct (if dh_DryRun dh then (fs, true) else os_MkdirAll E fs destFolder)
    as [fs1 []] eqn:Hmk; [| done].
  intros [= <-]. specialize (Hstart fs1 eq_refl).
  revert Hstart. generalize (start fs1). intros r0 Hr0.
  apply (fold_invariant_in inv); [| done]. clear r0 Hr0.
  intros r0 hash Hhash Hr0.
  destruct (Duplicates (dh_Scanner dh) !! hash) as [[| first [| second rest]] |]
    eqn:Hgroup; try done.
  cbn zeta. set (keeper := newest first (first :: second :: rest)).
  apply (fold_invariant_in inv); [| done].
  intros r1 file Hfile [Hq Hreg]. case_bool_decide as Hkeep; [done |].
  destruct (dh_DryRun dh); [done |].
  assert (Hsrc : regular (disk r1) (Path file)) by by eapply Hreg.
  assert (Hqs : q <> Path file).
  { intros ->. apply Hkeep. by eapply Hkeeper. }
  assert (Hqd : q <> Join destFolder (Name file)) by by eapply Hdest.
  pose proof (atomicMove_regular_frame E (disk r1) (Path file)
                (Join destFolder (Name file)) q Hsrc Hqs Hqd) as Hframe.
  assert (Hmoved : forall p, regular (disk r1) p ->
            regular (atomicMove E (disk r1) (Path file)
                       (Join destFolder (Name file))).1 p).
  { intros p. by apply atomicMove_regular. }
  cbn [disk say].
  destruct (atomicMove E (disk r1) (Path file) (Join destFolder (Name file)))
    as [fs' []]; cbn [fst] in *; (split; cbn; [congruence |]);
    intros h' files' f' Hg' Hf'; apply Hmoved; by eapply Hreg.
Qed.

Lemma MoveDuplicatesToFolder_spares_the_rest_witness :
  let dh := NewDuplicateHandler twins_scan false in
  let fs := disk_of ["Downloads"] twins_tree in
  let r := default (start fs)
             (MoveDuplicatesToFolder quiet dh ["Downloads"; "Duplicates"]
                ["md5:JFIF sea"] fs) in
  disk r !! ["Downloads"; "holiday (1).jpg"] = fs !! ["Downloads"; "holiday (1).jpg"].
Proof.
  intros dh fs r.
  assert (HD : forall hash files,
            Duplicates (dh_Scanner dh) !! hash = Some files ->
            hash = "md5:JFIF sea" /\ files = [holiday_copy; holiday]).
  { intros hash files H.
    change (Duplicates (dh_Scanner dh)) with (Duplicates twins_scan) in H.
    replace (Duplicates twins_scan)
      with ({["md5:JFIF sea" := [holiday_copy; holiday]]}
              : gmap string (list FileInfo)) in H by (vm_compute; reflexivity).
    apply lookup_singleton_Some in H as [<- <-]. done. }
  apply (MoveDuplicatesToFolder_spares_the_rest quiet dh
           ["Downloads"; "Duplicates"] ["md5:JFIF sea"] fs).
  - intros hash files f [-> ->]%HD Hf.
    apply elem_of_cons in Hf as [-> | Hf];
      [| apply list_elem_of_singleton in Hf as ->];
      eexists; vm_compute; reflexivity.
  - intros hash first rest f _ [-> [= -> ->]]%HD _ _. reflexivity.
  - intros hash files f [-> ->]%HD Hf.
    apply elem_of_cons in Hf as [-> | Hf];
      [| apply list_elem_of_singleton in Hf as ->]; discriminate.
  - intros Hin. vm_compute in Hin.
    apply elem_of_cons in Hin as [Hin | Hin]; [discriminate |].
    apply list_elem_of_singleton in Hin. discriminate.
  - vm_compute. reflexivity.
Defined.
